(** * Startup metrics: the projection and derived-metrics engine

    A shallow embedding of [streamlit_app.py]: the scalar formulas
    ([calculate_runway], [calculate_burn_rate], [calculate_mom_growth],
    [calculate_ltv_cac_ratio], [calculate_lifetime_from_churn]) and the
    projectors ([calculate_revenue_projection], [calculate_customer_projection],
    [calculate_customer_flow], [generate_scenario_projections],
    [generate_runway_projection]).

    Python numbers are modelled as they are at run time: an [int] is an
    unbounded integer ([Z]), a [float] is an IEEE 754 binary64 value (the
    kernel's primitive [float]), and every operator follows CPython's
    coercion rules and raises the exception CPython raises. *)

From Stdlib Require Import ZArith List Bool String Ascii Lia Floats.
From Stdlib Require Uint63.
Import ListNotations.

Set Implicit Arguments.
Set Warnings "-inexact-float".

(** ** Exceptions and the error monad *)

Inductive exn : Set :=
| ValueError
| TypeError
| ZeroDivisionError
| OverflowError
| IndexError.

Inductive result (A : Type) : Type :=
| Ok (a : A)
| Raise (e : exn).

Arguments Ok {A} a.
Arguments Raise {A} e.

Definition bind {A B : Type} (r : result A) (k : A -> result B) : result B :=
  match r with
  | Ok a => k a
  | Raise e => Raise e
  end.

Declare Scope py_scope.
Delimit Scope py_scope with py.
Notation "x <- r ;; k" := (bind r (fun x => k))
  (at level 61, r at next level, right associativity) : py_scope.
Notation "' p <- r ;; k" := (bind r (fun p => k))
  (at level 61, p pattern, r at next level, right associativity) : py_scope.
Open Scope py_scope.

(** [for x in xs: body] over a state [S] of the loop's local variables; an
    exception raised by the body leaves the loop at once. *)
Fixpoint for_each {X S : Type} (xs : list X) (body : X -> S -> result S)
  (s : S) : result S :=
  match xs with
  | [] => Ok s
  | x :: xs' => s' <- body x s ;; for_each xs' body s'
  end.

(** [range(n)] for an [int] [n]: empty when [n <= 0]. *)
Definition range (n : Z) : list nat := seq 0 (Z.to_nat n).

(** ** Python numbers *)

Module Num.

Inductive num : Set :=
| Int (z : Z)
| Float (f : float).

(** [float(i)] for an int [i] (PyLong_AsDouble): the nearest binary64 value,
    ties to even; [OverflowError] when it is out of range. *)
Definition sf_of_Z (z : Z) : spec_float := binary_normalize prec emax z 0 false.

Definition float_of_int (z : Z) : result float :=
  match sf_of_Z z with
  | S754_infinity _ => Raise OverflowError
  | sf => Ok (SF2Prim sf)
  end.

Definition to_float (x : num) : result float :=
  match x with
  | Int z => float_of_int z
  | Float f => Ok f
  end.

(** The binary operators [+], [-], [*]: exact on two ints, IEEE 754 on two
    floats, and the int operand is converted first when the operands are
    mixed. *)
Definition arith (zop : Z -> Z -> Z) (fop : float -> float -> float)
  (x y : num) : result num :=
  match x, y with
  | Int a, Int b => Ok (Int (zop a b))
  | _, _ => a <- to_float x ;; b <- to_float y ;; Ok (Float (fop a b))
  end.

Definition add : num -> num -> result num := arith Z.add PrimFloat.add.
Definition sub : num -> num -> result num := arith Z.sub PrimFloat.sub.
Definition mul : num -> num -> result num := arith Z.mul PrimFloat.mul.

(** The exact integer [z] as a specification float with an unbounded
    mantissa, used to round an int quotient once. *)
Definition sf_exact (z : Z) : spec_float :=
  match z with
  | Z0 => S754_zero false
  | Zpos p => S754_finite false p 0
  | Zneg p => S754_finite true p 0
  end.

(** True division [/].  int / int is the correctly rounded quotient
    (long_true_divide); a zero divisor raises [ZeroDivisionError], also for
    floats; an int quotient out of range raises [OverflowError]. *)
Definition truediv (x y : num) : result num :=
  match x, y with
  | Int a, Int b =>
      if (b =? 0)%Z then Raise ZeroDivisionError
      else match SFdiv prec emax (sf_exact a) (sf_exact b) with
           | S754_infinity _ => Raise OverflowError
           | S754_zero _ => Ok (Float (SF2Prim (S754_zero (xorb (a <? 0)%Z (b <? 0)%Z))))
           | q => Ok (Float (SF2Prim q))
           end
  | _, _ =>
      a <- to_float x ;; b <- to_float y ;;
      if (b =? 0)%float then Raise ZeroDivisionError
      else Ok (Float (a / b)%float)
  end.

(** Comparisons with the literal [0].  Python compares an int and a float by
    value; a NaN compares false with everything. *)
Definition gt0 (x : num) : bool :=
  match x with
  | Int z => (0 <? z)%Z
  | Float f => (0 <? f)%float
  end.

Definition le0 (x : num) : bool :=
  match x with
  | Int z => (z <=? 0)%Z
  | Float f => (f <=? 0)%float
  end.

Definition eq0 (x : num) : bool :=
  match x with
  | Int z => (z =? 0)%Z
  | Float f => (f =? 0)%float
  end.

Definition lt0 (x : num) : bool :=
  match x with
  | Int z => (z <? 0)%Z
  | Float f => (f <? 0)%float
  end.

(** [max(0, x)]: the builtin keeps its first argument unless a later one is
    strictly greater, so the result is the int [0] unless [x > 0]. *)
Definition max0 (x : num) : num := if gt0 x then x else Int 0.

(** [int(x)]: truncation towards zero; [ValueError] on a NaN and
    [OverflowError] on an infinity. *)
Definition trunc_float (f : float) : result Z :=
  match Prim2SF f with
  | S754_zero _ => Ok 0%Z
  | S754_nan => Raise ValueError
  | S754_infinity _ => Raise OverflowError
  | S754_finite s m e =>
      let a := match e with
               | Zneg k => Z.shiftr (Zpos m) (Zpos k)
               | _ => Z.shiftl (Zpos m) e
               end in
      Ok (if s then (- a)%Z else a)
  end.

Definition int (x : num) : result Z :=
  match x with
  | Int z => Ok z
  | Float f => trunc_float f
  end.

(** [x ** n] for a loop index [n >= 0] (float_pow).  Two ints give the exact
    int power.  With a float base CPython answers the special cases itself
    ([n = 0], NaN, infinities, zeros, [x = 1.0]) and hands the rest to the C
    library's [pow], raising [OverflowError] when that overflows.  The C
    library's [pow] is not specified bit for bit; it is modelled by the
    correctly rounded power ([x = m * 2^e] raised to the power exactly and
    rounded once), with which a C library agrees when the power is exactly
    representable and from which it may differ in the last digits
    otherwise.  The properties below compare the code with formulas
    evaluated with this same operator, and evaluate it only on powers that
    are exactly representable or on small exponents. *)
Definition odd_nat (n : nat) : bool := Nat.odd n.

Definition pow_finite (m : positive) (e : Z) (n : nat) : spec_float :=
  binary_normalize prec emax (Z.pow (Zpos m) (Z.of_nat n)) (e * Z.of_nat n) false.

Definition float_pow (x : float) (n : nat) : result float :=
  match n with
  | O => Ok 1%float
  | _ =>
      match Prim2SF x with
      | S754_nan => Ok x
      | S754_infinity s => Ok (if s && odd_nat n then neg_infinity else infinity)
      | S754_zero s => Ok (if s && odd_nat n then neg_zero else zero)
      | S754_finite s m e =>
          let neg := s && odd_nat n in
          if (abs x =? 1)%float then Ok (if neg then (-1)%float else 1%float)
          else match pow_finite m e n with
               | S754_infinity _ => Raise OverflowError
               | r => Ok (if neg then (- SF2Prim r)%float else SF2Prim r)
               end
      end
  end.

Definition pow (x : num) (n : nat) : result num :=
  match x with
  | Int z => Ok (Int (Z.pow z (Z.of_nat n)))
  | Float f => r <- float_pow f n ;; Ok (Float r)
  end.

End Num.

Import Num.

(** ** Run-time values

    The functions are annotated with [float] and [int], and Python does not
    enforce annotations: the scalar formulas may be handed any object.  A
    value is a number, a string or [None] (a [bool] is an [int], 0 or 1).
    The string and [None] are the non-numbers modelled: they support none
    of the arithmetic operators.  Objects that are no [int] or [float] and
    yet support arithmetic ([Fraction], [Decimal]) are not modelled, and
    nothing below is stated of them beyond the [isinstance] guards. *)

Inductive value : Set :=
| VNum (n : num)
| VStr (s : string)
| VNone.

(** [isinstance(v, (int, float))] *)
Definition is_numeric (v : value) : bool :=
  match v with
  | VNum _ => true
  | _ => false
  end.

(** The operand of [-], [/] or an ordering comparison: these operators are
    not defined on a string or [None] and raise [TypeError]. *)
Definition operand (v : value) : result num :=
  match v with
  | VNum n => Ok n
  | _ => Raise TypeError
  end.

Definition vsub (x y : value) : result value :=
  a <- operand x ;; b <- operand y ;; r <- sub a b ;; Ok (VNum r).

Definition vdiv (x y : value) : result value :=
  a <- operand x ;; b <- operand y ;; r <- truediv a b ;; Ok (VNum r).

Definition vmul_num (x : value) (y : num) : result value :=
  a <- operand x ;; r <- mul a y ;; Ok (VNum r).

(** [v == 0]: never raises; a string or [None] is not equal to [0]. *)
Definition veq0 (v : value) : bool :=
  match v with
  | VNum n => eq0 n
  | _ => false
  end.

(** [v > 0] and [v <= 0]: [TypeError] unless [v] is a number. *)
Definition vgt0 (v : value) : result bool := a <- operand v ;; Ok (gt0 a).
Definition vle0 (v : value) : result bool := a <- operand v ;; Ok (le0 a).

(** ** The data model *)

Inductive GrowthModel : Set := FIXED | LINEAR | EXPONENTIAL.

Inductive CustomerType : Set := B2B | B2C.

Record Scenario : Set := {
  name : string;
  revenue_multiplier : num;
  expense_multiplier : num;
  customer_growth_multiplier : num;
  color : string
}.

Record CustomerMetrics : Set := {
  total : Z;
  new : Z;
  cac : num;
  churn_rate : num;
  type : CustomerType
}.

(** ** Scalar formulas *)

Definition calculate_runway (cash_balance monthly_burn : value) : result value :=
  if negb (is_numeric cash_balance) || negb (is_numeric monthly_burn)
  then Raise ValueError
  else
    c <- vle0 monthly_burn ;;
    if c then Ok (VNum (Int 0)) else vdiv cash_balance monthly_burn.

Definition calculate_burn_rate (revenues expenses : value) : result value :=
  if negb (is_numeric revenues) || negb (is_numeric expenses)
  then Raise ValueError
  else vsub expenses revenues.

Definition calculate_mom_growth (current previous : value) : result value :=
  if veq0 previous then Ok (VNum (Int 0))
  else
    d <- vsub current previous ;;
    q <- vdiv d previous ;;
    vmul_num q (Int 100).

Definition calculate_ltv_cac_ratio (ltv cac : value) : result value :=
  if veq0 cac then Ok (VNum (Int 0)) else vdiv ltv cac.

Definition calculate_lifetime_from_churn (churn_rate : value) : result value :=
  c <- vgt0 churn_rate ;;
  if c then
    r <- vdiv churn_rate (VNum (Int 100)) ;;
    vdiv (VNum (Int 1)) r
  else Ok (VNum (Float infinity)).

(** ** The clock and the month labels

    [datetime.now()] reads the machine's clock.  The reading is an explicit
    argument [now] of the functions that label their periods: the day as a
    proleptic Gregorian ordinal (day 1 is 0001-01-01), which is all that
    adding whole days and formatting with ["%Y-%m"] look at.  The labels of
    one call are taken on one day. *)

Module Clock.

Definition MAXORDINAL : Z := 3652059.
Definition MAX_DELTA_DAYS : Z := 999999999.

(** [now + timedelta(days=d)]: [OverflowError] when the number of days or
    the resulting date is out of range. *)
Definition add_days (now d : Z) : result Z :=
  if (Z.abs d >? MAX_DELTA_DAYS)%Z then Raise OverflowError
  else
    let o := (now + d)%Z in
    if (1 <=? o)%Z && (o <=? MAXORDINAL)%Z then Ok o else Raise OverflowError.

Definition days_before_month (m : Z) : Z :=
  nth (Z.to_nat m) [0; 0; 31; 59; 90; 120; 151; 181; 212; 243; 273; 304; 334]%Z 0%Z.

(** The year and month of an ordinal (ord_to_ymd). *)
Definition year_month (ordinal : Z) : Z * Z :=
  let o := (ordinal - 1)%Z in
  let n400 := (o / 146097)%Z in
  let n := (o mod 146097)%Z in
  let n100 := (n / 36524)%Z in
  let n := (n mod 36524)%Z in
  let n4 := (n / 1461)%Z in
  let n := (n mod 1461)%Z in
  let n1 := (n / 365)%Z in
  let n := (n mod 365)%Z in
  let year := (n400 * 400 + 1 + n100 * 100 + n4 * 4 + n1)%Z in
  if (n1 =? 4)%Z || (n100 =? 4)%Z then ((year - 1)%Z, 12%Z)
  else
    let leapyear := (n1 =? 3)%Z && (negb (n4 =? 24)%Z || (n100 =? 3)%Z) in
    let month := Z.shiftr (n + 50) 5 in
    let preceding :=
      (days_before_month month + (if (month >? 2)%Z && leapyear then 1 else 0))%Z in
    if (preceding >? n)%Z then (year, (month - 1)%Z) else (year, month).

Definition digit (d : Z) : string :=
  String (ascii_of_nat (48 + Z.to_nat (d mod 10))) EmptyString.

(** [strftime("%Y-%m")]: the year on four digits and the month on two (a
    clock reads a year from 1000 on, where every platform prints four
    digits). *)
Definition strftime_Y_m (ordinal : Z) : string :=
  let '(y, m) := year_month ordinal in
  (digit (y / 1000) ++ digit (y / 100) ++ digit (y / 10) ++ digit y ++ "-"
   ++ digit (m / 10) ++ digit m)%string.

(** [(datetime.now() + timedelta(days=30 * month)).strftime("%Y-%m")] *)
Definition label (now : Z) (month : nat) : result string :=
  d <- add_days now (30 * Z.of_nat month) ;; Ok (strftime_Y_m d).

End Clock.

(** A list comprehension [[f(x) for x in xs]] whose element may raise. *)
Fixpoint comprehension {X Y : Type} (f : X -> result Y) (xs : list X)
  : result (list Y) :=
  match xs with
  | [] => Ok []
  | x :: xs' => y <- f x ;; ys <- comprehension f xs' ;; Ok (y :: ys)
  end.

(** [xs[i]] for an index [i >= 0]: [IndexError] past the end. *)
Definition index {X : Type} (xs : list X) (i : nat) : result X :=
  match nth_error xs i with
  | Some x => Ok x
  | None => Raise IndexError
  end.

Definition month_num (month : nat) : num := Int (Z.of_nat month).

(** ** Projectors *)

Definition generate_runway_projection (now : Z) (cash_balance burn_rate runway_months : num)
  : result (list string * list num) :=
  n <- int runway_months ;;
  let months := range (n + 1) in
  projected_cash <-
    comprehension (fun month =>
      t <- mul burn_rate (month_num month) ;; sub cash_balance t) months ;;
  dates <- comprehension (Clock.label now) months ;;
  Ok (dates, projected_cash).

Definition revenue_at (initial_revenue : num) (model : GrowthModel)
  (linear_coefficient exponential_base : num) (month : nat) : result num :=
  match model with
  | FIXED => Ok initial_revenue
  | LINEAR =>
      r <- truediv linear_coefficient (Int 100) ;;
      monthly_increase <- mul initial_revenue r ;;
      t <- mul monthly_increase (month_num month) ;;
      add initial_revenue t
  | EXPONENTIAL =>
      r <- truediv exponential_base (Int 100) ;;
      b <- add (Int 1) r ;;
      p <- pow b month ;;
      mul initial_revenue p
  end.

Definition calculate_revenue_projection (initial_revenue : num) (months : Z)
  (model : GrowthModel) (linear_coefficient exponential_base : num)
  : result (list num) :=
  for_each (range (months + 1))
    (fun month revenues =>
       revenue <- revenue_at initial_revenue model linear_coefficient
                    exponential_base month ;;
       Ok (revenues ++ [max0 revenue]))
    [].

(** A [dict] keeps its keys in insertion order; assigning to a key that is
    present replaces its value in place. *)
Fixpoint dict_set {V : Type} (d : list (CustomerType * V)) (k : CustomerType)
  (v : V) : list (CustomerType * V) :=
  match d with
  | [] => [(k, v)]
  | (k', v') :: d' =>
      match k, k' with
      | B2B, B2B | B2C, B2C => (k', v) :: d'
      | _, _ => (k', v') :: dict_set d' k v
      end
  end.

(** The body of the month loop of [calculate_customer_projection].  The
    state is the pair of the list [customers] and the running
    [current_customers]: the running value is recorded first and updated
    after. *)
Definition customer_update (metrics : CustomerMetrics) (model : GrowthModel)
  (linear_growth : Z) (exponential_growth : num) (month : nat)
  (current_customers : Z) : result Z :=
  match model with
  | FIXED => Ok (current_customers + new metrics)%Z
  | LINEAR =>
      Ok (current_customers + (new metrics + linear_growth * Z.of_nat month))%Z
  | EXPONENTIAL =>
      growth_rate <- truediv exponential_growth (Int 100) ;;
      b <- add (Int 1) growth_rate ;;
      p <- pow b month ;;
      t <- mul (Int (total metrics)) p ;;
      int t
  end.

Definition customer_step (metrics : CustomerMetrics) (model : GrowthModel)
  (linear_growth : Z) (exponential_growth : num) (month : nat)
  (st : list Z * Z) : result (list Z * Z) :=
  let '(customers, current_customers) := st in
  let customers := customers ++ [current_customers] in
  current_customers <- customer_update metrics model linear_growth
                         exponential_growth month current_customers ;;
  Ok (customers, current_customers).

Definition customer_series (metrics : CustomerMetrics) (months : Z)
  (model : GrowthModel) (linear_growth : Z) (exponential_growth : num)
  : result (list Z) :=
  st <- for_each (range (months + 1))
          (customer_step metrics model linear_growth exponential_growth)
          ([], total metrics) ;;
  Ok (fst st).

Definition calculate_customer_projection (b2b_metrics b2c_metrics : CustomerMetrics)
  (months : Z) (model : GrowthModel) (linear_growth : Z)
  (exponential_growth : num) : result (list (CustomerType * list Z)) :=
  for_each [b2b_metrics; b2c_metrics]
    (fun metrics projections =>
       customers <- customer_series metrics months model linear_growth
                      exponential_growth ;;
       Ok (dict_set projections (type metrics) customers))
    [].

(** The cash loop of one scenario.  The state is the list [projected_cash]
    and the running [current_cash]: the running value is recorded first and
    the month's burn is subtracted after. *)
Definition monthly_burn_at (revenues : list num) (adjusted_expenses : num)
  (month : nat) : result num :=
  r <- index revenues month ;;
  g <- pow (Float 1.02) month ;;
  e <- mul adjusted_expenses g ;;
  monthly_burn <- calculate_burn_rate (VNum r) (VNum e) ;;
  operand monthly_burn.

Definition cash_update (revenues : list num) (adjusted_expenses : num)
  (month : nat) (current_cash : num) : result num :=
  monthly_burn <- monthly_burn_at revenues adjusted_expenses month ;;
  sub current_cash monthly_burn.

Definition cash_step (revenues : list num) (adjusted_expenses : num)
  (month : nat) (st : list num * num) : result (list num * num) :=
  let '(projected_cash, current_cash) := st in
  let projected_cash := projected_cash ++ [current_cash] in
  current_cash <- cash_update revenues adjusted_expenses month current_cash ;;
  Ok (projected_cash, current_cash).

Definition scenario_projection (now : Z) (cash_balance monthly_revenue monthly_expenses : num)
  (months : Z) (revenue_model : GrowthModel)
  (linear_coefficient exponential_base : num) (scenario : Scenario)
  : result (string * list string * list num * string) :=
  adjusted_initial_revenue <- mul monthly_revenue (revenue_multiplier scenario) ;;
  adjusted_expenses <- mul monthly_expenses (expense_multiplier scenario) ;;
  lc <- mul linear_coefficient (revenue_multiplier scenario) ;;
  eb <- mul exponential_base (revenue_multiplier scenario) ;;
  revenues <- calculate_revenue_projection adjusted_initial_revenue months
                revenue_model lc eb ;;
  dates <- comprehension (Clock.label now) (range (months + 1)) ;;
  st <- for_each (range (months + 1)) (cash_step revenues adjusted_expenses)
          ([], cash_balance) ;;
  Ok (name scenario, dates, fst st, color scenario).

Definition generate_scenario_projections (now : Z)
  (cash_balance monthly_revenue monthly_expenses : num) (months : Z)
  (scenarios : list Scenario) (revenue_model : GrowthModel)
  (linear_coefficient exponential_base : num)
  : result (list (string * list string * list num * string)) :=
  for_each scenarios
    (fun scenario projections =>
       p <- scenario_projection now cash_balance monthly_revenue
              monthly_expenses months revenue_model linear_coefficient
              exponential_base scenario ;;
       Ok (projections ++ [p]))
    [].

(** The state of the month loop of [calculate_customer_flow]. *)
Record flow_state : Set := {
  new_per_month : list Z;
  churned_per_month : list Z;
  total_customers : list Z;
  current_total : Z
}.

Definition new_at (new_customers : Z) (growth_model : GrowthModel)
  (linear_growth exponential_growth : num) (month : nat) : result Z :=
  match growth_model with
  | FIXED => Ok new_customers
  | LINEAR =>
      r <- truediv linear_growth (Int 100) ;;
      t <- mul r (month_num month) ;;
      f <- add (Int 1) t ;;
      x <- mul (Int new_customers) f ;;
      int x
  | EXPONENTIAL =>
      growth_rate <- truediv exponential_growth (Int 100) ;;
      b <- add (Int 1) growth_rate ;;
      p <- pow b month ;;
      x <- mul (Int new_customers) p ;;
      int x
  end.

Definition flow_step (new_customers : Z) (churn_rate : num)
  (growth_model : GrowthModel) (linear_growth exponential_growth : num)
  (month : nat) (st : flow_state) : result flow_state :=
  new_this_month <- new_at new_customers growth_model linear_growth
                      exponential_growth month ;;
  r <- truediv churn_rate (Int 100) ;;
  c <- mul (Int (current_total st)) r ;;
  churned_this_month <- int c ;;
  let current_total := (current_total st + new_this_month - churned_this_month)%Z in
  let current_total := Z.max 0 current_total in
  Ok {| new_per_month := new_per_month st ++ [new_this_month];
        churned_per_month := churned_per_month st ++ [churned_this_month];
        total_customers := total_customers st ++ [current_total];
        current_total := current_total |}.

Definition calculate_customer_flow (initial_customers new_customers : Z)
  (churn_rate : num) (months : Z) (growth_model : GrowthModel)
  (linear_growth exponential_growth : num)
  : result (list Z * list Z * list Z) :=
  st <- for_each (range (months + 1))
          (flow_step new_customers churn_rate growth_model linear_growth
             exponential_growth)
          {| new_per_month := []; churned_per_month := [];
             total_customers := []; current_total := initial_customers |} ;;
  Ok (new_per_month st, churned_per_month st, total_customers st).

(** ** Reading the specification

    The formulas the specification states, written with Python's own
    operators so that they can be compared with what the code returns. *)

Module Spec.

(** Python's [==] between an int and a float compares the exact values. *)
Definition int_eq_float (z : Z) (f : float) : bool :=
  match Prim2SF f with
  | S754_zero _ => (z =? 0)%Z
  | S754_finite s m e =>
      let v := if s then Zneg m else Zpos m in
      match e with
      | Zneg k => (z * 2 ^ Zpos k =? v)%Z
      | _ => (z =? v * 2 ^ e)%Z
      end
  | _ => false
  end.

Definition num_eqb (x y : num) : bool :=
  match x, y with
  | Int a, Int b => (a =? b)%Z
  | Float a, Float b => (a =? b)%float
  | Int a, Float b => int_eq_float a b
  | Float a, Int b => int_eq_float b a
  end.

(** [x >= 0] *)
Definition ge0 (x : num) : bool :=
  match x with
  | Int z => (0 <=? z)%Z
  | Float f => (0 <=? f)%float
  end.

(** A float that is not a number; an int never is. *)
Definition is_nan (x : num) : bool :=
  match x with
  | Int _ => false
  | Float f => PrimFloat.is_nan f
  end.

(** [initial + (initial * (linear_pct / 100)) * m] *)
Definition linear_value (initial linear_pct : num) (m : nat) : result num :=
  r <- truediv linear_pct (Int 100) ;;
  i <- mul initial r ;;
  t <- mul i (month_num m) ;;
  add initial t.

(** [int(initial_total * (1 + rate / 100) ** m)] *)
Definition exponential_total (initial_total : Z) (rate : num) (m : nat)
  : result Z :=
  r <- truediv rate (Int 100) ;;
  b <- add (Int 1) r ;;
  p <- pow b m ;;
  t <- mul (Int initial_total) p ;;
  int t.

(** The total-update rule of the customer flow:
    [max(0, current_total + new_this_period - churned_this_period)] with
    [churned_this_period = int(current_total * (churn_pct / 100))]. *)
Definition flow_update (current_total new_this_period : Z) (churn_pct : num)
  : result Z :=
  r <- truediv churn_pct (Int 100) ;;
  c <- mul (Int current_total) r ;;
  churned <- int c ;;
  Ok (Z.max 0 (current_total + new_this_period - churned)).

(** The new customers of period [m]: the initial count under Fixed,
    [int(initial_new * (1 + (linear_pct / 100) * m))] under Linear and
    [int(initial_new * (1 + exponential_pct / 100) ** m)] under
    Exponential. *)
Definition new_in_period (initial_new : Z) (model : GrowthModel)
  (linear_pct exponential_pct : num) (m : nat) : result Z :=
  match model with
  | FIXED => Ok initial_new
  | LINEAR =>
      r <- truediv linear_pct (Int 100) ;;
      g <- mul r (Int (Z.of_nat m)) ;;
      f <- add (Int 1) g ;;
      x <- mul (Int initial_new) f ;;
      int x
  | EXPONENTIAL =>
      r <- truediv exponential_pct (Int 100) ;;
      b <- add (Int 1) r ;;
      p <- pow b m ;;
      x <- mul (Int initial_new) p ;;
      int x
  end.

(** The churned customers of a period:
    [int(current_total * (churn_pct / 100))]. *)
Definition churned_in_period (current_total : Z) (churn_pct : num) : result Z :=
  r <- truediv churn_pct (Int 100) ;;
  c <- mul (Int current_total) r ;;
  int c.

End Spec.

(** ** Runs and records

    The notions the properties are stated with. *)

(** A loop that records the running value and then updates it: [trace upd xs
    c tr c'] runs the updates of [xs] from [c], records the values in [tr]
    and ends in [c']. *)
Inductive trace {X S : Type} (upd : X -> S -> result S)
  : list X -> S -> list S -> S -> Prop :=
| trace_nil : forall c, trace upd [] c [] c
| trace_cons : forall x xs c c' tr cf,
    upd x c = Ok c' -> trace upd xs c' tr cf ->
    trace upd (x :: xs) c (c :: tr) cf.

(** [int(current_total * (churn_rate / 100))] *)
Definition churned_at (churn_rate : num) (current : Z) : result Z :=
  r <- truediv churn_rate (Int 100) ;;
  c <- mul (Int current) r ;;
  int c.

(** The run of the month loop of the customer flow from a running total:
    the new, churned and total values it appends, and the running total it
    ends with. *)
Inductive flow_run (new_customers : Z) (churn_rate : num)
  (growth_model : GrowthModel) (linear_growth exponential_growth : num)
  : list nat -> Z -> list Z -> list Z -> list Z -> Z -> Prop :=
| flow_done : forall c,
    flow_run new_customers churn_rate growth_model linear_growth
      exponential_growth [] c [] [] [] c
| flow_month : forall month months c n ch ns cs ts cf,
    new_at new_customers growth_model linear_growth exponential_growth month
    = Ok n ->
    churned_at churn_rate c = Ok ch ->
    flow_run new_customers churn_rate growth_model linear_growth
      exponential_growth months (Z.max 0 (c + n - ch)) ns cs ts cf ->
    flow_run new_customers churn_rate growth_model linear_growth
      exponential_growth (month :: months) c
      (n :: ns) (ch :: cs) (Z.max 0 (c + n - ch) :: ts) cf.

Definition segment (total new : Z) (churn_rate : num) (type : CustomerType)
  : CustomerMetrics :=
  {| total := total; new := new; cac := Int 0; churn_rate := churn_rate;
     type := type |}.


(** Two segments that differ at most in their [churn_rate]. *)
Definition same_but_churn (m m' : CustomerMetrics) : Prop :=
  total m = total m' /\ new m = new m' /\ cac m = cac m' /\ type m = type m'.

(** The parts of one scenario's result: its own name and colour, one label
    per period, and the record of the cash loop run from [cash_balance]
    over the scenario's revenues and expenses. *)
Definition scenario_result (now : Z)
  (cash_balance monthly_revenue monthly_expenses : num) (months : Z)
  (revenue_model : GrowthModel) (linear_coefficient exponential_base : num)
  (scenario : Scenario)
  (p : string * list string * list num * string) : Prop :=
  let '(n, dates, cash, col) := p in
  n = name scenario /\ col = color scenario
  /\ Forall2 (fun m d => Clock.label now m = Ok d) (range (months + 1)) dates
  /\ exists adjusted_initial_revenue adjusted_expenses lc eb revenues cf,
       mul monthly_revenue (revenue_multiplier scenario) = Ok adjusted_initial_revenue
       /\ mul monthly_expenses (expense_multiplier scenario) = Ok adjusted_expenses
       /\ mul linear_coefficient (revenue_multiplier scenario) = Ok lc
       /\ mul exponential_base (revenue_multiplier scenario) = Ok eb
       /\ calculate_revenue_projection adjusted_initial_revenue months
            revenue_model lc eb = Ok revenues
       /\ trace (cash_update revenues adjusted_expenses) (range (months + 1))
            cash_balance cash cf.

(** The burn of period [m] under a scenario: the scenario's expenses grown
    by 2% per period, minus the scenario's revenue of that period. *)
Definition scenario_burn (monthly_revenue monthly_expenses : num) (months : Z)
  (revenue_model : GrowthModel) (linear_coefficient exponential_base : num)
  (scenario : Scenario) (m : nat) : result num :=
  adjusted_initial_revenue <- mul monthly_revenue (revenue_multiplier scenario) ;;
  adjusted_expenses <- mul monthly_expenses (expense_multiplier scenario) ;;
  lc <- mul linear_coefficient (revenue_multiplier scenario) ;;
  eb <- mul exponential_base (revenue_multiplier scenario) ;;
  revenues <- calculate_revenue_projection adjusted_initial_revenue months
                revenue_model lc eb ;;
  monthly_burn_at revenues adjusted_expenses m.

(** The three scenarios of the dashboard. *)
Definition canonical_scenarios : list Scenario :=
  [ {| name := "Best Case"; revenue_multiplier := Float 1.2;
       expense_multiplier := Float 0.9;
       customer_growth_multiplier := Float 1.15; color := "green" |};
    {| name := "Normal Case"; revenue_multiplier := Float 1;
       expense_multiplier := Float 1;
       customer_growth_multiplier := Float 1.1; color := "blue" |};
    {| name := "Worst Case"; revenue_multiplier := Float 0.8;
       expense_multiplier := Float 1.1;
       customer_growth_multiplier := Float 1.05; color := "red" |} ].

(** The components of a scenario's result that are numbers or are passed
    through: its name, its cash sequence and its colour. *)
Definition unlabelled (p : string * list string * list num * string)
  : string * list num * string :=
  (fst (fst (fst p)), snd (fst p), snd p).

(** A specification float that carries the sign [s], or a NaN. *)
Definition has_sign (s : bool) (r : spec_float) : Prop :=
  match r with
  | S754_zero s' | S754_infinity s' | S754_finite s' _ _ => s' = s
  | S754_nan => True
  end.

(** Not below zero: a zero of either sign, a positive number or a NaN. *)
Definition sf_nonneg (r : spec_float) : Prop :=
  match r with
  | S754_zero _ | S754_nan => True
  | S754_infinity s | S754_finite s _ _ => s = false
  end.

(** ** The metrics block of [main]

    The part of [main] between the input widgets and the charts: the two
    validation guards, which report an error and return, and the metrics
    computed from the inputs.  The customer counts come from integer
    widgets. *)

Module Main.

Record inputs : Set := {
  cash_balance : num;
  monthly_revenue : num;
  monthly_expenses : num;
  previous_month_revenue : num;
  b2b_total : Z;
  b2b_new : Z;
  b2b_cac : num;
  b2b_churn_rate : num;
  b2c_total : Z;
  b2c_new : Z;
  b2c_cac : num;
  b2c_churn_rate : num
}.

Record metrics : Set := {
  burn_rate : num;
  runway_months : num;
  mom_growth : num;
  total_customers : Z;
  new_customers : Z;
  weighted_cac : num;
  weighted_churn : num;
  average_lifetime : num;
  arpu : num;
  ltv : num;
  ltv_cac_ratio : num;
  conversion_rate : num
}.

(** [cash_balance < 0 or monthly_revenue < 0 or monthly_expenses < 0] *)
Definition financials_negative (i : inputs) : bool :=
  lt0 (cash_balance i) || lt0 (monthly_revenue i) || lt0 (monthly_expenses i).

(** [b2b_total < 0 or b2b_new > b2b_total or b2c_total < 0 or b2c_new > b2c_total] *)
Definition customers_invalid (i : inputs) : bool :=
  (b2b_total i <? 0)%Z || (b2b_new i >? b2b_total i)%Z
  || (b2c_total i <? 0)%Z || (b2c_new i >? b2c_total i)%Z.

(** [(x1 * n1 + x2 * n2) / total if total > 0 else 0] *)
Definition weighted (x1 : num) (n1 : Z) (x2 : num) (n2 : Z) (total : Z)
  : result num :=
  if (total >? 0)%Z then
    a <- mul x1 (Int n1) ;;
    b <- mul x2 (Int n2) ;;
    c <- add a b ;;
    truediv c (Int total)
  else Ok (Int 0).

(** The metrics of one evaluation; [None] when a guard reports an error and
    returns. *)
Definition calculate (i : inputs) : result (option metrics) :=
  if financials_negative i then Ok None
  else if customers_invalid i then Ok None
  else
    burn_rate <- calculate_burn_rate (VNum (monthly_revenue i))
                   (VNum (monthly_expenses i)) ;;
    runway_months <- calculate_runway (VNum (cash_balance i)) burn_rate ;;
    mom_growth <- calculate_mom_growth (VNum (monthly_revenue i))
                    (VNum (previous_month_revenue i)) ;;
    let total_customers := (b2b_total i + b2c_total i)%Z in
    let new_customers := (b2b_new i + b2c_new i)%Z in
    weighted_cac <- weighted (b2b_cac i) (b2b_total i) (b2c_cac i)
                      (b2c_total i) total_customers ;;
    weighted_churn <- weighted (b2b_churn_rate i) (b2b_total i)
                        (b2c_churn_rate i) (b2c_total i) total_customers ;;
    average_lifetime <- calculate_lifetime_from_churn (VNum weighted_churn) ;;
    arpu <- (if (total_customers >? 0)%Z
             then truediv (monthly_revenue i) (Int total_customers)
             else Ok (Int 0)) ;;
    lifetime <- operand average_lifetime ;;
    ltv <- mul arpu lifetime ;;
    ltv_cac_ratio <- calculate_ltv_cac_ratio (VNum ltv) (VNum weighted_cac) ;;
    conversion_rate <- (if (total_customers >? 0)%Z
                        then q <- truediv (Int new_customers)
                                    (Int total_customers) ;;
                             mul q (Int 100)
                        else Ok (Int 0)) ;;
    burn <- operand burn_rate ;;
    runway <- operand runway_months ;;
    growth <- operand mom_growth ;;
    ratio <- operand ltv_cac_ratio ;;
    Ok (Some {| burn_rate := burn; runway_months := runway;
                mom_growth := growth; total_customers := total_customers;
                new_customers := new_customers; weighted_cac := weighted_cac;
                weighted_churn := weighted_churn; average_lifetime := lifetime;
                arpu := arpu; ltv := ltv; ltv_cac_ratio := ratio;
                conversion_rate := conversion_rate |}).

End Main.

(** The default inputs of the dashboard. *)
Definition sample_inputs : Main.inputs :=
  {| Main.cash_balance := Float 100000; Main.monthly_revenue := Float 10000;
     Main.monthly_expenses := Float 20000;
     Main.previous_month_revenue := Float 8000;
     Main.b2b_total := 20; Main.b2b_new := 5; Main.b2b_cac := Float 500;
     Main.b2b_churn_rate := Float 2;
     Main.b2c_total := 80; Main.b2c_new := 15; Main.b2c_cac := Float 50;
     Main.b2c_churn_rate := Float 5 |}.

(** [d[k]] on the dict of projections: the value stored under [k], if any. *)
Fixpoint dict_get {V : Type} (d : list (CustomerType * V)) (k : CustomerType)
  : option V :=
  match d with
  | [] => None
  | (k', v) :: d' =>
      match k, k' with
      | B2B, B2B | B2C, B2C => Some v
      | _, _ => dict_get d' k
      end
  end.

(** Two scenarios that differ at most in their
    [customer_growth_multiplier]. *)
Definition same_but_customer_growth (s s' : Scenario) : Prop :=
  name s = name s' /\ revenue_multiplier s = revenue_multiplier s'
  /\ expense_multiplier s = expense_multiplier s' /\ color s = color s'.

(** The closed forms of the total-only projection under Fixed and Linear. *)
Definition fixed_total (metrics : CustomerMetrics) (m : nat) : Z :=
  total metrics + Z.of_nat m * new metrics.

Definition linear_total (metrics : CustomerMetrics) (linear_growth : Z)
  (m : nat) : Z :=
  total metrics + Z.of_nat m * new metrics
  + linear_growth * (Z.of_nat m * (Z.of_nat m - 1) / 2).

(** A specification float of sign [s] that is not a NaN. *)
Definition strict_sign (s : bool) (r : spec_float) : Prop :=
  match r with
  | S754_zero s' | S754_infinity s' | S754_finite s' _ _ => s' = s
  | S754_nan => False
  end.

(** A float that is neither an infinity nor a NaN. *)
Definition sf_finite (y : spec_float) : bool :=
  match y with
  | S754_zero _ | S754_finite _ _ _ => true
  | _ => false
  end.

Definition is_finite (f : float) : bool := sf_finite (Prim2SF f).


(** [initial_revenue * (linear_coefficient / 100)] *)
Definition monthly_increase (initial_revenue linear_coefficient : num)
  : result num :=
  r <- truediv linear_coefficient (Int 100) ;;
  mul initial_revenue r.


(** * Properties *)

(** ** Loops *)

Section Loops.

Context {X Y S : Type}.

Lemma bind_Ok {A B : Type} (r : result A) (k : A -> result B) (b : B) :
  bind r k = Ok b -> exists a, r = Ok a /\ k a = Ok b.
Proof.
  destruct r as [a|e]; simpl; intros H; [exists a; auto | discriminate].
Qed.

Lemma comprehension_Forall2 (f : X -> result Y) (xs : list X) (ys : list Y) :
  comprehension f xs = Ok ys -> Forall2 (fun x y => f x = Ok y) xs ys.
Proof.
  revert ys; induction xs as [|x xs IH]; simpl; intros ys H.
  - injection H as <-. constructor.
  - apply bind_Ok in H as (y & Hy & H).
    apply bind_Ok in H as (ys' & Hys & H).
    injection H as <-. constructor; auto.
Qed.

Lemma Forall2_nth_error_l (R : X -> Y -> Prop) (xs : list X) (ys : list Y) :
  Forall2 R xs ys ->
  forall i x, nth_error xs i = Some x ->
  exists y, nth_error ys i = Some y /\ R x y.
Proof.
  induction 1 as [|x0 y0 xs ys H0 _ IH]; intros [|i] x; simpl; try discriminate.
  - intros [= <-]. eauto.
  - apply IH.
Qed.

(** A loop that appends one computed element per iteration. *)
Lemma for_each_collect (f : X -> result Y) (h : Y -> S) (xs : list X) :
  forall (acc l : list S),
  for_each xs (fun x acc => v <- f x ;; Ok (acc ++ [h v])) acc = Ok l ->
  exists vs, Forall2 (fun x v => f x = Ok v) xs vs /\ l = acc ++ map h vs.
Proof.
  induction xs as [|x xs IH]; simpl; intros acc l H.
  - injection H as <-. exists []. split; [constructor | now rewrite app_nil_r].
  - apply bind_Ok in H as (acc' & Hb & H).
    apply bind_Ok in Hb as (v & Hv & Hb). injection Hb as <-.
    apply IH in H as (vs & Hvs & ->).
    exists (v :: vs). split; [constructor; auto|].
    now rewrite <- app_assoc.
Qed.

Lemma for_each_trace (upd : X -> S -> result S)
  (step : X -> list S * S -> result (list S * S)) :
  (forall x acc c, step x (acc, c) = (c' <- upd x c ;; Ok (acc ++ [c], c'))) ->
  forall xs acc c l cf,
  for_each xs step (acc, c) = Ok (l, cf) ->
  exists tr, l = acc ++ tr /\ trace upd xs c tr cf.
Proof.
  intros Hstep xs; induction xs as [|x xs IH]; simpl; intros acc c l cf H.
  - injection H as <- <-. exists []. split; [now rewrite app_nil_r | constructor].
  - apply bind_Ok in H as ([acc' c'] & Hb & H).
    rewrite Hstep in Hb. apply bind_Ok in Hb as (c1 & Hc1 & Hb).
    injection Hb as <- <-.
    apply IH in H as (tr & -> & Htr).
    exists (c :: tr). split; [now rewrite <- app_assoc | econstructor; eauto].
Qed.

Lemma trace_length (upd : X -> S -> result S) xs c tr cf :
  trace upd xs c tr cf -> List.length tr = List.length xs.
Proof. induction 1; simpl; congruence. Qed.

Lemma trace_head (upd : X -> S -> result S) x xs c tr cf :
  trace upd (x :: xs) c tr cf -> nth_error tr 0 = Some c.
Proof. inversion 1; reflexivity. Qed.

(** Two consecutive recorded values are related by the update of the
    iteration between them. *)
Lemma trace_next (upd : X -> S -> result S) xs c tr cf :
  trace upd xs c tr cf ->
  forall i x u u',
  nth_error xs i = Some x -> nth_error tr i = Some u ->
  nth_error tr (Datatypes.S i) = Some u' -> upd x u = Ok u'.
Proof.
  induction 1 as [|x0 xs c c' tr cf Hupd Htr IH]; intros i x u u' Hx Hu Hu'.
  - destruct i; discriminate.
  - destruct i as [|i]; simpl in *.
    + injection Hx as <-. injection Hu as <-.
      inversion Htr; subst; simpl in Hu'; [discriminate|].
      injection Hu' as <-. assumption.
    + eapply IH; eauto.
Qed.

End Loops.

Lemma range_nth (n : Z) (i : nat) :
  (Z.of_nat i < n)%Z -> nth_error (range n) i = Some i.
Proof.
  intros H. unfold range.
  rewrite nth_error_nth' with (d := O) by (rewrite length_seq; lia).
  rewrite seq_nth by lia. reflexivity.
Qed.

(** ** Revenue projection *)

Section Revenue.

Variables (initial_revenue : num) (model : GrowthModel).
Variables (linear_coefficient exponential_base : num).

(** The projection is the list of the clamped monthly values. *)
Lemma revenue_projection_series (months : Z) (l : list num) :
  calculate_revenue_projection initial_revenue months model
    linear_coefficient exponential_base = Ok l ->
  exists vs,
    Forall2 (fun m v => revenue_at initial_revenue model linear_coefficient
                          exponential_base m = Ok v)
      (range (months + 1)) vs
    /\ l = map max0 vs.
Proof.
  unfold calculate_revenue_projection. intros H.
  apply for_each_collect in H as (vs & Hvs & ->). exists vs. auto.
Qed.

Lemma revenue_projection_nth (months : Z) (l : list num) (m : nat) :
  (Z.of_nat m <= months)%Z ->
  calculate_revenue_projection initial_revenue months model
    linear_coefficient exponential_base = Ok l ->
  exists v,
    revenue_at initial_revenue model linear_coefficient exponential_base m = Ok v
    /\ nth_error l m = Some (max0 v).
Proof.
  intros Hm H. apply revenue_projection_series in H as (vs & Hvs & ->).
  destruct (Forall2_nth_error_l Hvs m (x := m)) as (v & Hv & Hr).
  - apply range_nth. lia.
  - exists v. split; [assumption|]. rewrite nth_error_map, Hv. reflexivity.
Qed.


End Revenue.

(** C1 (as amended).  Under the Linear model the value recorded for every
    period [m] of [0..N] is [max(0, R + (R * (p/100)) * m)]: the value of the
    linear formula when that is positive and [0] otherwise.  In particular
    [calculate_revenue_projection(10000, 3, Linear, linear_coefficient=10)]
    returns [[10000.0, 11000.0, 12000.0, 13000.0]], which Python's [==]
    identifies with [[10000, 11000, 12000, 13000]]. *)
Theorem linear_projection_clamped :
  (forall (R : num) (N : Z) (p e : num) (m : nat) (l : list num),
      (Z.of_nat m <= N)%Z ->
      calculate_revenue_projection R N LINEAR p e = Ok l ->
      exists v, Spec.linear_value R p m = Ok v
                /\ nth_error l m = Some (max0 v))
  /\ calculate_revenue_projection (Int 10000) 3 LINEAR (Int 10) (Int 0)
     = Ok [Float 10000; Float 11000; Float 12000; Float 13000]
  /\ Forall2 (fun x y => Spec.num_eqb x y = true)
       [Float 10000; Float 11000; Float 12000; Float 13000]
       [Int 10000; Int 11000; Int 12000; Int 13000].
Proof.
  split; [|split].
  - intros R N p e m l Hm H.
    destruct (revenue_projection_nth _ _ _ _ _ Hm H) as (v & Hv & Hn).
    exists v. split; assumption.
  - vm_compute. reflexivity.
  - repeat constructor.
Qed.

Lemma linear_projection_clamped_witness :
  (Z.of_nat 2 <= 3)%Z
  /\ calculate_revenue_projection (Int 100) 3 LINEAR (Int (-50)) (Int 0)
     = Ok [Float 100; Float 50; Int 0; Int 0]
  /\ exists v, Spec.linear_value (Int 100) (Int (-50)) 2 = Ok v
               /\ nth_error [Float 100; Float 50; Int 0; Int 0] 2 = Some (max0 v).
Proof.
  split; [lia|]. split; [vm_compute; reflexivity|].
  apply (proj1 linear_projection_clamped (Int 100) 3%Z (Int (-50)) (Int 0) 2%nat).
  - lia.
  - vm_compute. reflexivity.
Defined.

(** C1 as stated fails: with [R = 100] and [p = -50] the linear formula gives
    [-50.0] at period 3, and the projection records [0]. *)
Lemma linear_projection_exact_counterexample :
  calculate_revenue_projection (Int 100) 3 LINEAR (Int (-50)) (Int 0)
  = Ok [Float 100; Float 50; Int 0; Int 0]
  /\ Spec.linear_value (Int 100) (Int (-50)) 3 = Ok (Float (-50))
  /\ Spec.num_eqb (Int 0) (Float (-50)) = false.
Proof. repeat split; vm_compute; reflexivity. Qed.

(** ** Customer flow *)

Section Flow.

Variables (new_customers : Z) (churn_rate : num) (growth_model : GrowthModel).
Variables (linear_growth exponential_growth : num).

Local Abbreviation flow_run :=
  (flow_run new_customers churn_rate growth_model linear_growth
     exponential_growth).
Local Abbreviation churned_at := (churned_at churn_rate).

Lemma flow_loop_run (months : list nat) :
  forall st st',
  for_each months
    (flow_step new_customers churn_rate growth_model linear_growth
       exponential_growth) st = Ok st' ->
  exists ns cs ts,
    new_per_month st' = new_per_month st ++ ns
    /\ churned_per_month st' = churned_per_month st ++ cs
    /\ total_customers st' = total_customers st ++ ts
    /\ flow_run months (current_total st) ns cs ts (current_total st').
Proof.
  induction months as [|month months IH]; simpl; intros st st' H.
  - injection H as <-. exists [], [], []. rewrite !app_nil_r.
    repeat split; constructor.
  - apply bind_Ok in H as (st1 & Hstep & H).
    unfold flow_step in Hstep.
    apply bind_Ok in Hstep as (n & Hn & Hstep).
    apply bind_Ok in Hstep as (r & Hr & Hstep).
    apply bind_Ok in Hstep as (c & Hc & Hstep).
    apply bind_Ok in Hstep as (ch & Hch & Hstep).
    injection Hstep as <-.
    apply IH in H as (ns & cs & ts & Hns & Hcs & Hts & Hrun). simpl in *.
    exists (n :: ns), (ch :: cs), (Z.max 0 (current_total st + n - ch) :: ts).
    rewrite Hns, Hcs, Hts, <- !app_assoc. repeat split.
    constructor; auto.
    unfold churned_at. rewrite Hr. simpl. rewrite Hc. simpl. exact Hch.
Qed.


Lemma flow_run_nonneg months c ns cs ts cf :
  flow_run months c ns cs ts cf -> Forall (fun t => 0 <= t)%Z ts.
Proof.
  induction 1; constructor; auto. apply Z.le_max_l.
Qed.

(** What the call returns, as a run from [initial_customers]. *)
Lemma customer_flow_run (initial_customers months : Z) ns cs ts :
  calculate_customer_flow initial_customers new_customers churn_rate months
    growth_model linear_growth exponential_growth = Ok (ns, cs, ts) ->
  exists cf, flow_run (range (months + 1)) initial_customers ns cs ts cf.
Proof.
  unfold calculate_customer_flow. intros H.
  apply bind_Ok in H as (st & Hloop & H). injection H as <- <- <-.
  apply flow_loop_run in Hloop as (ns & cs & ts & -> & -> & -> & Hrun).
  simpl in *. eauto.
Qed.

End Flow.

(** Along a run, every recorded total is the specification's update of the
    total before it. *)
Lemma flow_run_update new_customers churn_rate growth_model linear_growth
  exponential_growth months c ns cs ts cf :
  flow_run new_customers churn_rate growth_model linear_growth
    exponential_growth months c ns cs ts cf ->
  forall m t n,
    nth_error ts m = Some t -> nth_error ns m = Some n ->
    Spec.flow_update
      (match m with O => c | Datatypes.S k => nth k ts 0%Z end) n churn_rate
    = Ok t.
Proof.
  induction 1 as [|month ms c n0 ch0 ns cs ts cf Hn Hch Hrun IH].
  - intros [|m]; discriminate.
  - intros [|m] t n; simpl.
    + intros [= <-] [= <-]. unfold Spec.flow_update.
      unfold churned_at in Hch.
      apply bind_Ok in Hch as (r & -> & Hch).
      apply bind_Ok in Hch as (x & Hx & Hch). cbn [bind]. rewrite Hx.
      cbn [bind]. rewrite Hch. reflexivity.
    + intros Ht Hn'. rewrite <- (IH m t n Ht Hn').
      destruct m; reflexivity.
Qed.

(** C2.  Every element of the total-customers sequence returned by
    [calculate_customer_flow] is non-negative, whatever the initial total,
    the initial new count, the churn percentage, the horizon and the growth
    model: each element is the running total after the update
    [max(0, current_total + new_this_period - churned_this_period)]. *)
Theorem customer_flow_total_nonneg :
  forall (initial_customers new_customers : Z) (churn_rate : num) (months : Z)
         (growth_model : GrowthModel) (linear_growth exponential_growth : num)
         (news churned totals : list Z),
    calculate_customer_flow initial_customers new_customers churn_rate months
      growth_model linear_growth exponential_growth
    = Ok (news, churned, totals) ->
    Forall (fun t => 0 <= t)%Z totals
    /\ forall m t n,
         nth_error totals m = Some t ->
         nth_error news m = Some n ->
         Spec.flow_update
           (match m with
            | O => initial_customers
            | Datatypes.S k => nth k totals 0%Z
            end) n churn_rate
         = Ok t.
Proof.
  intros i nc cr months gm lg eg news churned totals H.
  apply customer_flow_run in H as (cf & Hrun). split.
  - eapply flow_run_nonneg; eauto.
  - eapply flow_run_update; eauto.
Qed.

Lemma customer_flow_total_nonneg_witness :
  calculate_customer_flow 5 0 (Float 150) 3 LINEAR (Int 10) (Float 10)
  = Ok ([0; 0; 0; 0], [7; 0; 0; 0], [0; 0; 0; 0])%Z
  /\ Forall (fun t => 0 <= t)%Z [0; 0; 0; 0]%Z.
Proof.
  split; [vm_compute; reflexivity|].
  apply (customer_flow_total_nonneg 5 0 (Float 150) 3 LINEAR (Int 10) (Float 10)
           (news := [0; 0; 0; 0]%Z) (churned := [7; 0; 0; 0]%Z)).
  vm_compute. reflexivity.
Defined.

(** ** Total-only customer projection *)

Lemma for_each_ext {X S : Type} (f g : X -> S -> result S) (xs : list X) :
  (forall x s, f x s = g x s) ->
  forall s, for_each xs f s = for_each xs g s.
Proof.
  intros Hfg. induction xs as [|x xs IH]; simpl; intros s; [reflexivity|].
  rewrite Hfg. destruct (g x s); simpl; auto.
Qed.

Section Customers.

Variables (metrics : CustomerMetrics) (model : GrowthModel).
Variables (linear_growth : Z) (exponential_growth : num).

Local Abbreviation upd :=
  (customer_update metrics model linear_growth exponential_growth).

Lemma customer_series_trace (months : Z) (l : list Z) :
  customer_series metrics months model linear_growth exponential_growth = Ok l ->
  exists cf, trace upd (range (months + 1)) (total metrics) l cf.
Proof.
  unfold customer_series. intros H.
  apply bind_Ok in H as ([l' cf] & Hloop & H). injection H as <-.
  apply for_each_trace with (upd := upd) in Hloop as (tr & -> & Htr).
  - exists cf. exact Htr.
  - intros x acc c. reflexivity.
Qed.

Lemma customer_series_length (months : Z) (l : list Z) :
  customer_series metrics months model linear_growth exponential_growth = Ok l ->
  List.length l = Z.to_nat (months + 1).
Proof.
  intros H. apply customer_series_trace in H as (cf & Htr).
  apply trace_length in Htr. rewrite Htr. unfold range. apply length_seq.
Qed.


End Customers.

Section CustomerModels.

Variables (metrics : CustomerMetrics) (linear_growth : Z) (exponential_growth : num).

(** Exponential: the update ignores the running total and recomputes it
    from the initial total with the exponent of the month that is ending;
    the recomputed total is recorded at the start of the next month. *)
Lemma exponential_series_lag (months : Z) (l : list Z) (k : nat) (v : Z) :
  customer_series metrics months EXPONENTIAL linear_growth exponential_growth
  = Ok l ->
  nth_error l (Datatypes.S k) = Some v ->
  Spec.exponential_total (total metrics) exponential_growth k = Ok v.
Proof.
  intros H Hv. pose proof (customer_series_length _ _ _ _ _ H) as Hlen.
  apply customer_series_trace in H as (cf & Htr).
  assert (Hk : (Datatypes.S k < List.length l)%nat)
    by (apply nth_error_Some; congruence).
  destruct (nth_error l k) as [u|] eqn:Hu;
    [|apply nth_error_None in Hu; lia].
  assert (Hx : nth_error (range (months + 1)) k = Some k) by (apply range_nth; lia).
  exact (trace_next Htr k Hx Hu Hv).
Qed.

End CustomerModels.

(** The returned dict holds the series of the first segment under its type,
    then the series of the second one. *)
Lemma customer_projection_segments b2b b2c months model linear_growth exponential_growth d :
  calculate_customer_projection b2b b2c months model linear_growth
    exponential_growth = Ok d ->
  exists l1 l2,
    customer_series b2b months model linear_growth exponential_growth = Ok l1
    /\ customer_series b2c months model linear_growth exponential_growth = Ok l2
    /\ d = dict_set [(type b2b, l1)] (type b2c) l2.
Proof.
  unfold calculate_customer_projection. simpl. intros H.
  apply bind_Ok in H as (d1 & H1 & H).
  apply bind_Ok in H1 as (l1 & Hl1 & H1). injection H1 as <-.
  apply bind_Ok in H as (d2 & H2 & H). injection H as <-.
  apply bind_Ok in H2 as (l2 & Hl2 & H2). injection H2 as <-.
  exists l1, l2. auto.
Qed.

(** C3.  The code departs from the claim by one period.  With an initial
    total of 100 and a rate of 100 the formula
    [int(initial_total * (1 + rate/100) ** m)] gives 100, 200, 400 for the
    periods 0, 1, 2, and so do the sibling projectors, which use the
    exponent [m] at period [m] (the revenue projection below); the
    total-only projection records 100, 100, 200: each recomputed total is
    recorded one period late. *)
Theorem exponential_projection_off_by_one :
  calculate_customer_projection (segment 100 10 (Int 50) B2B)
    (segment 80 15 (Int 5) B2C) 2 EXPONENTIAL 0 (Int 100)
  = Ok [(B2B, [100; 100; 200]%Z); (B2C, [80; 80; 160]%Z)]
  /\ Spec.exponential_total 100 (Int 100) 0 = Ok 100%Z
  /\ Spec.exponential_total 100 (Int 100) 1 = Ok 200%Z
  /\ Spec.exponential_total 100 (Int 100) 2 = Ok 400%Z
  /\ calculate_revenue_projection (Int 100) 2 EXPONENTIAL (Int 0) (Int 100)
     = Ok [Float 100; Float 200; Float 400].
Proof. repeat split; vm_compute; reflexivity. Qed.

Lemma customer_series_churn (m m' : CustomerMetrics) months model lg eg :
  same_but_churn m m' ->
  customer_series m months model lg eg = customer_series m' months model lg eg.
Proof.
  intros (Ht & Hn & _ & _). unfold customer_series. rewrite Ht.
  rewrite for_each_ext
    with (g := customer_step m' model lg eg); [reflexivity|].
  intros month [customers current]. unfold customer_step, customer_update.
  rewrite Ht, Hn. reflexivity.
Qed.

(** C10.  The output of [calculate_customer_projection] does not depend on
    the [churn_rate] of its segments: two pairs of segments that differ only
    in their churn rates give the same result (the same projections, or the
    same exception), for every horizon, model and growth coefficients. *)
Theorem customer_projection_ignores_churn :
  forall (b2b b2b' b2c b2c' : CustomerMetrics) (months : Z)
         (model : GrowthModel) (linear_growth : Z) (exponential_growth : num),
    same_but_churn b2b b2b' ->
    same_but_churn b2c b2c' ->
    calculate_customer_projection b2b b2c months model linear_growth
      exponential_growth
    = calculate_customer_projection b2b' b2c' months model linear_growth
        exponential_growth.
Proof.
  intros b2b b2b' b2c b2c' months model lg eg H1 H2.
  unfold calculate_customer_projection. simpl.
  rewrite (customer_series_churn months model lg eg H1).
  rewrite (customer_series_churn months model lg eg H2).
  destruct H1 as (_ & _ & _ & ->). destruct H2 as (_ & _ & _ & ->).
  reflexivity.
Qed.

Lemma customer_projection_ignores_churn_witness :
  calculate_customer_projection (segment 100 10 (Int 2) B2B)
    (segment 80 15 (Int 5) B2C) 3 LINEAR 2 (Int 0)
  = calculate_customer_projection (segment 100 10 (Float 97.5) B2B)
      (segment 80 15 (Int 0) B2C) 3 LINEAR 2 (Int 0)
  /\ calculate_customer_projection (segment 100 10 (Int 2) B2B)
       (segment 80 15 (Int 5) B2C) 3 LINEAR 2 (Int 0)
     = Ok [(B2B, [100; 110; 122; 136]%Z); (B2C, [80; 95; 112; 131]%Z)].
Proof.
  split.
  - apply customer_projection_ignores_churn; repeat split; reflexivity.
  - vm_compute. reflexivity.
Defined.

(** ** Scenario projections *)

Section Scenarios.

Variables (now : Z) (cash_balance monthly_revenue monthly_expenses : num).
Variables (months : Z) (revenue_model : GrowthModel).
Variables (linear_coefficient exponential_base : num).

Local Abbreviation project :=
  (scenario_projection now cash_balance monthly_revenue monthly_expenses months
     revenue_model linear_coefficient exponential_base).
Local Abbreviation scenario_result :=
  (scenario_result now cash_balance monthly_revenue monthly_expenses months
     revenue_model linear_coefficient exponential_base).

Lemma scenario_projection_result (scenario : Scenario) p :
  project scenario = Ok p -> scenario_result scenario p.
Proof.
  unfold project, scenario_projection. intros H.
  apply bind_Ok in H as (air & Hair & H).
  apply bind_Ok in H as (ae & Hae & H).
  apply bind_Ok in H as (lc & Hlc & H).
  apply bind_Ok in H as (eb & Heb & H).
  apply bind_Ok in H as (revenues & Hrev & H).
  apply bind_Ok in H as (dates & Hdates & H).
  apply bind_Ok in H as ([cash cf] & Hloop & H).
  injection H as <-. simpl.
  apply for_each_trace with (upd := cash_update revenues ae) in Hloop
    as (tr & -> & Htr); [|intros x acc c; reflexivity].
  repeat split.
  - apply comprehension_Forall2. exact Hdates.
  - exists air, ae, lc, eb, revenues, cf. simpl. auto 10.
Qed.

(** One result per scenario, in the order of the scenarios, each computed
    from its own scenario alone. *)
Lemma scenario_projections_each (scenarios : list Scenario) ps :
  generate_scenario_projections now cash_balance monthly_revenue
    monthly_expenses months scenarios revenue_model linear_coefficient
    exponential_base = Ok ps ->
  Forall2 (fun scenario p => project scenario = Ok p) scenarios ps.
Proof.
  unfold generate_scenario_projections. intros H.
  apply for_each_collect with (f := project) (h := fun p => p) in H
    as (vs & Hvs & ->).
  simpl. rewrite map_id. exact Hvs.
Qed.

End Scenarios.

(** C7.  [generate_scenario_projections] emits one result per scenario, in
    the order of the input list and each carrying its scenario's name and
    colour.  In each cash sequence the value of period [m] is the cash
    before that period's burn is subtracted: period 0 is the input
    [cash_balance] itself, and the value of period [m + 1] is the value of
    period [m] minus the burn of period [m]. *)
Theorem scenario_projections_in_order :
  forall (now : Z) (cash_balance monthly_revenue monthly_expenses : num)
         (months : Z) (scenarios : list Scenario) (revenue_model : GrowthModel)
         (linear_coefficient exponential_base : num)
         (ps : list (string * list string * list num * string)),
    (0 <= months)%Z ->
    generate_scenario_projections now cash_balance monthly_revenue
      monthly_expenses months scenarios revenue_model linear_coefficient
      exponential_base = Ok ps ->
    map (fun p => fst (fst (fst p))) ps = map name scenarios
    /\ Forall2
         (fun scenario p =>
            scenario_projection now cash_balance monthly_revenue
              monthly_expenses months revenue_model linear_coefficient
              exponential_base scenario = Ok p
            /\ nth_error (snd (fst p)) 0 = Some cash_balance
            /\ forall m c c',
                 nth_error (snd (fst p)) m = Some c ->
                 nth_error (snd (fst p)) (Datatypes.S m) = Some c' ->
                 exists burn,
                   scenario_burn monthly_revenue monthly_expenses months
                     revenue_model linear_coefficient exponential_base
                     scenario m = Ok burn
                   /\ sub c burn = Ok c')
         scenarios ps.
Proof.
  intros now cash mr me months scenarios model lc eb ps Hm H.
  apply scenario_projections_each in H.
  split.
  - induction H as [|sc p scs ps Hp _ IH]; simpl; [reflexivity|].
    rewrite IH. f_equal.
    apply scenario_projection_result in Hp.
    destruct p as [[[n dates] cashs] col]. simpl in *. tauto.
  - induction H as [|sc p scs ps Hp _ IH]; constructor; [|exact IH].
    split; [exact Hp|].
    apply scenario_projection_result in Hp.
    destruct p as [[[n dates] cashs] col].
    destruct Hp as (_ & _ & _ & air & ae & lc' & eb' & revs & cf
                    & Hair & Hae & Hlc & Heb & Hrev & Htr).
    cbn [fst snd]. split.
    + unfold range in Htr.
      replace (Z.to_nat (months + 1)) with (Datatypes.S (Z.to_nat months))
        in Htr by lia.
      simpl in Htr. eapply trace_head; eauto.
    + intros m c c' Hc Hc'.
      assert (Hlen : List.length cashs = Z.to_nat (months + 1)).
      { apply trace_length in Htr. rewrite Htr. unfold range. apply length_seq. }
      assert (Hlt : (Datatypes.S m < List.length cashs)%nat)
        by (apply nth_error_Some; congruence).
      assert (Hx : nth_error (range (months + 1)) m = Some m)
        by (apply range_nth; lia).
      pose proof (trace_next Htr m Hx Hc Hc') as Hupd.
      unfold cash_update in Hupd.
      apply bind_Ok in Hupd as (burn & Hb & Hs).
      exists burn. split; [|exact Hs].
      unfold scenario_burn. rewrite Hair, Hae, Hlc, Heb. simpl.
      rewrite Hrev. exact Hb.
Qed.

Lemma scenario_projections_in_order_witness :
  (0 <= 2)%Z
  /\ generate_scenario_projections 739924 (Float 100000) (Float 10000)
       (Float 20000) 2 canonical_scenarios FIXED (Float 0) (Float 0)
     = Ok [("Best Case"%string, ["2026-11"; "2026-12"; "2027-01"]%string,
            [Float 100000; Float 94000; Float 87640], "green"%string);
           ("Normal Case"%string, ["2026-11"; "2026-12"; "2027-01"]%string,
            [Float 100000; Float 90000; Float 79600], "blue"%string);
           ("Worst Case"%string, ["2026-11"; "2026-12"; "2027-01"]%string,
            [Float 100000; Float 86000; Float 71560], "red"%string)]
  /\ map (fun p : string * list string * list num * string => fst (fst (fst p)))
       [("Best Case"%string, ["2026-11"; "2026-12"; "2027-01"]%string,
         [Float 100000; Float 94000; Float 87640], "green"%string);
        ("Normal Case"%string, ["2026-11"; "2026-12"; "2027-01"]%string,
         [Float 100000; Float 90000; Float 79600], "blue"%string);
        ("Worst Case"%string, ["2026-11"; "2026-12"; "2027-01"]%string,
         [Float 100000; Float 86000; Float 71560], "red"%string)]
     = map name canonical_scenarios.
Proof.
  split; [lia|]. split; [vm_compute; reflexivity|].
  apply (scenario_projections_in_order 739924 (Float 100000) (Float 10000)
           (Float 20000) (months := 2) canonical_scenarios FIXED (Float 0)
           (Float 0)).
  - lia.
  - vm_compute. reflexivity.
Defined.

(** ** The clock *)

Lemma scenario_projection_clock now now' cash mr me months model lc eb sc p p' :
  scenario_projection now cash mr me months model lc eb sc = Ok p ->
  scenario_projection now' cash mr me months model lc eb sc = Ok p' ->
  unlabelled p = unlabelled p'.
Proof.
  unfold scenario_projection. intros H H'.
  destruct (mul mr (revenue_multiplier sc)); [|discriminate].
  destruct (mul me (expense_multiplier sc)); [|discriminate].
  destruct (mul lc (revenue_multiplier sc)); [|discriminate].
  destruct (mul eb (revenue_multiplier sc)); [|discriminate].
  cbn [bind] in H, H'.
  destruct (calculate_revenue_projection _ _ _ _ _); [|discriminate].
  cbn [bind] in H, H'.
  destruct (comprehension (Clock.label now) _); [|discriminate].
  destruct (comprehension (Clock.label now') _); [|discriminate].
  cbn [bind] in H, H'.
  destruct (for_each _ _ _); [|discriminate].
  cbn [bind] in H, H'.
  injection H as <-. injection H' as <-. reflexivity.
Qed.

(** C8 (as amended).  The numbers a projector returns are determined by its
    explicit arguments: whatever the clock reads, two calls of
    [generate_scenario_projections] with the same arguments return the same
    names, cash sequences and colours, and two calls of
    [generate_runway_projection] return the same cash sequence.  (The other
    projectors read no clock at all.)  Only the month labels follow the
    clock. *)
Theorem projections_clock_independent :
  (forall (now now' : Z) (cash_balance monthly_revenue monthly_expenses : num)
          (months : Z) (scenarios : list Scenario) (revenue_model : GrowthModel)
          (linear_coefficient exponential_base : num) ps ps',
      generate_scenario_projections now cash_balance monthly_revenue
        monthly_expenses months scenarios revenue_model linear_coefficient
        exponential_base = Ok ps ->
      generate_scenario_projections now' cash_balance monthly_revenue
        monthly_expenses months scenarios revenue_model linear_coefficient
        exponential_base = Ok ps' ->
      map unlabelled ps = map unlabelled ps')
  /\ (forall (now now' : Z) (cash_balance burn_rate runway_months : num)
             dates dates' cash cash',
         generate_runway_projection now cash_balance burn_rate runway_months
         = Ok (dates, cash) ->
         generate_runway_projection now' cash_balance burn_rate runway_months
         = Ok (dates', cash') ->
         cash = cash').
Proof.
  split.
  - intros now now' cash mr me months scenarios model lc eb ps ps' H H'.
    apply scenario_projections_each in H, H'.
    revert ps' H'. induction H as [|sc p scs ps Hp _ IH]; intros ps' H'.
    + inversion H'. reflexivity.
    + inversion H' as [|? p' ? ps0 Hp' Hps']; subst. simpl.
      f_equal; [eapply scenario_projection_clock; eauto | apply IH; exact Hps'].
  - intros now now' cash burn runway dates dates' l l'.
    unfold generate_runway_projection. intros H H'.
    destruct (int runway); [|discriminate]. cbn [bind] in H, H'.
    destruct (comprehension (fun month => _) _); [|discriminate].
    cbn [bind] in H, H'.
    destruct (comprehension (Clock.label now) _); [|discriminate].
    destruct (comprehension (Clock.label now') _); [|discriminate].
    cbn [bind] in H, H'. congruence.
Qed.

Lemma projections_clock_independent_witness :
  generate_runway_projection 739924 (Float 100000) (Float 12000) (Float 2.5)
  = Ok (["2026-11"; "2026-12"; "2027-01"]%string,
        [Float 100000; Float 88000; Float 76000])
  /\ generate_runway_projection 739954 (Float 100000) (Float 12000) (Float 2.5)
     = Ok (["2026-12"; "2027-01"; "2027-02"]%string,
           [Float 100000; Float 88000; Float 76000])
  /\ [Float 100000; Float 88000; Float 76000]
     = [Float 100000; Float 88000; Float 76000].
Proof.
  split; [vm_compute; reflexivity|]. split; [vm_compute; reflexivity|].
  apply (proj2 projections_clock_independent 739924%Z 739954%Z (Float 100000)
           (Float 12000) (Float 2.5)
           ["2026-11"; "2026-12"; "2027-01"]%string
           ["2026-12"; "2027-01"; "2027-02"]%string);
    vm_compute; reflexivity.
Defined.

(** C8 as stated fails: the same arguments give different results on
    2026-11-04 and thirty days later, on 2026-12-04. *)
Lemma runway_projection_clock_counterexample :
  generate_runway_projection 739924 (Float 100000) (Float 12000) (Float 2.5)
  <> generate_runway_projection 739954 (Float 100000) (Float 12000) (Float 2.5).
Proof. vm_compute. discriminate. Qed.

Lemma scenario_projections_clock_counterexample :
  generate_scenario_projections 739924 (Float 100000) (Float 10000)
    (Float 20000) 0 canonical_scenarios FIXED (Float 0) (Float 0)
  <> generate_scenario_projections 739954 (Float 100000) (Float 10000)
       (Float 20000) 0 canonical_scenarios FIXED (Float 0) (Float 0).
Proof. vm_compute. discriminate. Qed.

(** ** Signs of floats *)

Section Signs.

Ltac by_cases :=
  simpl; intros; try exact I; try reflexivity; try discriminate;
  try congruence; intuition congruence.

Lemma has_sign_nonneg r : has_sign false r -> sf_nonneg r.
Proof. destruct r; simpl; auto. Qed.

Lemma binary_round_aux_sign s m e l :
  has_sign s (binary_round_aux prec emax s m e l).
Proof.
  unfold binary_round_aux.
  destruct (shr_fexp prec emax m e l) as [mrs' e'].
  destruct (shr_fexp prec emax _ e' loc_Exact) as [mrs'' e''].
  destruct (shr_m mrs''); simpl; auto.
  destruct (Z.leb e'' _); simpl; auto.
Qed.

Lemma binary_round_sign s m e : has_sign s (binary_round prec emax s m e).
Proof.
  unfold binary_round. destruct (shl_align _ _ _) as [mz ez].
  apply binary_round_aux_sign.
Qed.

Lemma binary_normalize_nonneg z e :
  (0 <= z)%Z -> has_sign false (binary_normalize prec emax z e false).
Proof.
  destruct z as [|p|p]; simpl; intros H; [reflexivity | | lia].
  apply binary_round_sign.
Qed.

Lemma SFldexp_sign r e :
  has_sign false r -> has_sign false (SFldexp prec emax r e).
Proof.
  destruct r as [s|s| |s m e0]; simpl; auto.
  intros ->. apply binary_round_sign.
Qed.

Lemma Prim2SF_zero : Prim2SF 0 = S754_zero false.
Proof. reflexivity. Qed.

Lemma ltb0_nonneg f : sf_nonneg (Prim2SF f) <-> (f <? 0)%float = false.
Proof.
  rewrite ltb_spec, Prim2SF_zero. unfold SFltb.
  destruct (Prim2SF f) as [s|[|]| |[|] m e]; by_cases.
Qed.

Lemma gtb0_nonneg f : (0 <? f)%float = true -> sf_nonneg (Prim2SF f).
Proof.
  rewrite ltb_spec, Prim2SF_zero. unfold SFltb.
  destruct (Prim2SF f) as [s|[|]| |[|] m e]; by_cases.
Qed.

Lemma geb0_nonneg f : (0 <=? f)%float = true -> sf_nonneg (Prim2SF f).
Proof.
  rewrite leb_spec, Prim2SF_zero. unfold SFleb.
  destruct (Prim2SF f) as [s|[|]| |[|] m e]; by_cases.
Qed.

Lemma gtb0_not_leb0 f : (0 <? f)%float = true -> (f <=? 0)%float = false.
Proof.
  rewrite ltb_spec, leb_spec, Prim2SF_zero. unfold SFltb, SFleb.
  destruct (Prim2SF f) as [s|[|]| |[|] m e]; by_cases.
Qed.

(** Every float but a NaN is either above zero or at most zero. *)
Lemma not_gtb0_leb0 f :
  PrimFloat.is_nan f = false -> (0 <? f)%float = false -> (f <=? 0)%float = true.
Proof.
  unfold is_nan. rewrite eqb_spec, ltb_spec, leb_spec, Prim2SF_zero.
  unfold SFeqb, SFltb, SFleb.
  destruct (Prim2SF f) as [s|[|]| |[|] m e]; by_cases.
Qed.

(** The float of a specification float that is not below zero is not below
    zero. *)
Lemma SF2Prim_nonneg r : sf_nonneg r -> sf_nonneg (Prim2SF (SF2Prim r)).
Proof.
  destruct r as [[|]|s| |s m e]; simpl; intros Hs; subst;
    try (vm_compute; exact I || reflexivity).
  rewrite Z_ldexp_spec, of_uint63_spec.
  apply has_sign_nonneg, SFldexp_sign, binary_normalize_nonneg.
  apply Uint63.to_Z_bounded.
Qed.

Lemma SFdiv_nonneg x y :
  sf_nonneg x -> sf_nonneg y -> SFeqb y (S754_zero false) = false ->
  sf_nonneg (SFdiv prec emax x y).
Proof.
  destruct x as [sx|sx| |sx mx ex], y as [sy|sy| |sy my ey]; simpl;
    intros Hx Hy Hz; subst; try exact I; try reflexivity; try discriminate.
  destruct (SFdiv_core_binary _ _ _ _ _ _) as [[mz ez] lz].
  apply has_sign_nonneg. apply binary_round_aux_sign.
Qed.

End Signs.

(** ** Scalar formulas *)

Lemma sf_exact_nonneg z : (0 <= z)%Z -> sf_nonneg (sf_exact z).
Proof. destruct z; simpl; intros H; auto; lia. Qed.

Lemma float_of_int_Ok z f : float_of_int z = Ok f -> f = SF2Prim (sf_of_Z z).
Proof.
  unfold float_of_int. destruct (sf_of_Z z); intros H;
    try discriminate; injection H as <-; reflexivity.
Qed.

Lemma to_float_nonneg x f :
  Spec.ge0 x = true -> to_float x = Ok f -> sf_nonneg (Prim2SF f).
Proof.
  destruct x as [z|g]; simpl.
  - intros Hz H. apply float_of_int_Ok in H as ->.
    apply SF2Prim_nonneg, has_sign_nonneg, binary_normalize_nonneg, Z.leb_le, Hz.
  - intros Hg [= <-]. apply geb0_nonneg, Hg.
Qed.

Lemma gt0_ge0 x : gt0 x = true -> Spec.ge0 x = true.
Proof.
  destruct x as [z|f]; simpl.
  - intros H. apply Z.leb_le. apply Z.ltb_lt in H. lia.
  - rewrite ltb_spec, leb_spec, Prim2SF_zero. unfold SFltb, SFleb.
    destruct (Prim2SF f) as [s|[|]| |[|] m e]; simpl; congruence.
Qed.

Lemma gt0_not_le0 x : gt0 x = true -> le0 x = false.
Proof.
  destruct x as [z|f]; simpl.
  - intros H. apply Z.ltb_lt in H. apply Z.leb_gt. lia.
  - apply gtb0_not_leb0.
Qed.

Lemma not_gt0_le0 x : Spec.is_nan x = false -> gt0 x = false -> le0 x = true.
Proof.
  destruct x as [z|f]; simpl.
  - intros _ H. apply Z.ltb_ge in H. apply Z.leb_le. lia.
  - apply not_gtb0_leb0.
Qed.

(** A quotient of a number that is not below zero by a number above zero is
    not below zero. *)
Lemma truediv_nonneg c b v :
  Spec.ge0 c = true -> gt0 b = true -> truediv c b = Ok v -> lt0 v = false.
Proof.
  intros Hc Hb H.
  assert (Hmixed : forall a' b',
             to_float c = Ok a' -> to_float b = Ok b' ->
             (b' =? 0)%float = false ->
             (a' / b' <? 0)%float = false).
  { intros a' b' Ha' Hb' Hz. apply ltb0_nonneg. rewrite div_spec.
    apply SFdiv_nonneg.
    - eapply to_float_nonneg; [exact Hc | exact Ha'].
    - eapply to_float_nonneg; [apply gt0_ge0, Hb | exact Hb'].
    - rewrite eqb_spec, Prim2SF_zero in Hz. exact Hz. }
  destruct c as [a|a], b as [d|d]; unfold truediv in H.
  - simpl in Hc, Hb. apply Z.leb_le in Hc. apply Z.ltb_lt in Hb.
    destruct (d =? 0)%Z eqn:Ed; [discriminate|].
    assert (Hq : sf_nonneg (SFdiv prec emax (sf_exact a) (sf_exact d))).
    { apply SFdiv_nonneg; try (apply sf_exact_nonneg; lia).
      destruct d; simpl; try reflexivity; lia. }
    replace (a <? 0)%Z with false in H by (symmetry; apply Z.ltb_ge; lia).
    replace (d <? 0)%Z with false in H by (symmetry; apply Z.ltb_ge; lia).
    destruct (SFdiv prec emax (sf_exact a) (sf_exact d)) eqn:E;
      try discriminate; injection H as <-; cbn [lt0];
      try reflexivity; apply ltb0_nonneg; exact (@SF2Prim_nonneg _ Hq).
  - apply bind_Ok in H as (a' & Ha' & H). apply bind_Ok in H as (b' & Hb' & H).
    destruct (b' =? 0)%float eqn:Ez; [discriminate|]. injection H as <-.
    simpl. eapply Hmixed; eauto.
  - apply bind_Ok in H as (a' & Ha' & H). apply bind_Ok in H as (b' & Hb' & H).
    destruct (b' =? 0)%float eqn:Ez; [discriminate|]. injection H as <-.
    simpl. eapply Hmixed; eauto.
  - apply bind_Ok in H as (a' & Ha' & H). apply bind_Ok in H as (b' & Hb' & H).
    destruct (b' =? 0)%float eqn:Ez; [discriminate|]. injection H as <-.
    simpl. eapply Hmixed; eauto.
Qed.

(** C5 (as amended).  For a numeric cash balance and a monthly burn that is
    not a NaN, [calculate_runway] returns [cash / burn] when [burn > 0] and
    [0] otherwise, in particular when [burn <= 0] (a zero or a negative
    burn); and the runway it returns is never negative when [cash >= 0] and
    [burn > 0]. *)
Theorem runway_formula :
  forall cash burn : num,
    (gt0 burn = true ->
     calculate_runway (VNum cash) (VNum burn)
     = (q <- truediv cash burn ;; Ok (VNum q)))
    /\ (le0 burn = true ->
        calculate_runway (VNum cash) (VNum burn) = Ok (VNum (Int 0)))
    /\ (Spec.is_nan burn = false -> gt0 burn = false ->
        calculate_runway (VNum cash) (VNum burn) = Ok (VNum (Int 0)))
    /\ (Spec.ge0 cash = true -> gt0 burn = true ->
        forall v, calculate_runway (VNum cash) (VNum burn) = Ok (VNum v) ->
                  lt0 v = false).
Proof.
  intros cash burn.
  assert (Hpos : gt0 burn = true ->
                 calculate_runway (VNum cash) (VNum burn)
                 = (q <- truediv cash burn ;; Ok (VNum q))).
  { intros Hb. unfold calculate_runway, vle0, vdiv. simpl.
    rewrite (gt0_not_le0 _ Hb). reflexivity. }
  assert (Hle : le0 burn = true ->
                calculate_runway (VNum cash) (VNum burn) = Ok (VNum (Int 0))).
  { intros Hb. unfold calculate_runway, vle0. simpl. rewrite Hb. reflexivity. }
  split; [exact Hpos|]. split; [exact Hle|]. split.
  - intros Hn Hb. apply Hle, not_gt0_le0; assumption.
  - intros Hc Hb v Hv. rewrite (Hpos Hb) in Hv.
    apply bind_Ok in Hv as (q & Hq & Hv). injection Hv as <-.
    eapply truediv_nonneg; eauto.
Qed.

Lemma runway_formula_witness :
  gt0 (Int 12000) = true /\ Spec.ge0 (Int 100000) = true
  /\ calculate_runway (VNum (Int 100000)) (VNum (Int 12000))
     = Ok (VNum (Float 8.3333333333333339))
  /\ lt0 (Float 8.3333333333333339) = false
  /\ le0 (Float (-250)) = true
  /\ calculate_runway (VNum (Int 100000)) (VNum (Float (-250)))
     = Ok (VNum (Int 0)).
Proof.
  assert (H1 : gt0 (Int 12000) = true) by reflexivity.
  assert (H2 : Spec.ge0 (Int 100000) = true) by reflexivity.
  assert (H3 : le0 (Float (-250)) = true) by reflexivity.
  split; [exact H1|]. split; [exact H2|]. split; [vm_compute; reflexivity|].
  split; [|split; [exact H3|]].
  - apply (proj2 (proj2 (proj2 (runway_formula (Int 100000) (Int 12000)))) H2 H1).
    vm_compute. reflexivity.
  - apply (proj1 (proj2 (runway_formula (Int 100000) (Float (-250)))) H3).
Defined.

(** C5 as stated fails: a NaN burn is a float, passes the guard and is not
    above zero, and the runway returned is [cash / NaN], a NaN, not [0]. *)
Lemma runway_nan_counterexample :
  is_numeric (VNum (Float nan)) = true
  /\ gt0 (Float nan) = false
  /\ calculate_runway (VNum (Int 100000)) (VNum (Float nan))
     = Ok (VNum (Float nan))
  /\ Spec.num_eqb (Float nan) (Int 0) = false.
Proof. repeat split; vm_compute; reflexivity. Qed.

(** C6.  [calculate_lifetime_from_churn] returns [1 / (c / 100)] when
    [c > 0] and positive infinity otherwise; for [c = 0] the result is
    positive infinity, and for [c = 100] it is [1.0], which equals [1]. *)
Theorem lifetime_formula :
  (forall c : num,
      calculate_lifetime_from_churn (VNum c)
      = if gt0 c
        then r <- truediv c (Int 100) ;;
             q <- truediv (Int 1) r ;; Ok (VNum q)
        else Ok (VNum (Float infinity)))
  /\ calculate_lifetime_from_churn (VNum (Int 0)) = Ok (VNum (Float infinity))
  /\ calculate_lifetime_from_churn (VNum (Float 0)) = Ok (VNum (Float infinity))
  /\ calculate_lifetime_from_churn (VNum (Int 100)) = Ok (VNum (Float 1))
  /\ calculate_lifetime_from_churn (VNum (Float 100)) = Ok (VNum (Float 1))
  /\ Spec.num_eqb (Float 1) (Int 1) = true.
Proof.
  split.
  - intros c. unfold calculate_lifetime_from_churn, vgt0, vdiv. simpl.
    destruct (gt0 c); [|reflexivity].
    destruct (truediv c (Int 100)) as [r|e]; [|reflexivity]. simpl.
    destruct (truediv (Int 1) r); reflexivity.
  - repeat split; vm_compute; reflexivity.
Qed.

(** ** Validation *)

(** C9 (as amended).  [calculate_burn_rate] and [calculate_runway] raise
    [ValueError] (the specification's InvalidInput) as soon as one of their
    arguments is not a number, and return nothing; on two numbers
    [calculate_burn_rate] returns [expenses - revenues].
    [calculate_mom_growth] and [calculate_ltv_cac_ratio] do not validate
    their arguments: whenever their second argument equals [0] they return
    [0] without raising, whatever the first argument is. *)
Theorem validation_of_scalar_formulas :
  (forall revenues expenses : value,
      is_numeric revenues = false \/ is_numeric expenses = false ->
      calculate_burn_rate revenues expenses = Raise ValueError)
  /\ (forall cash_balance monthly_burn : value,
         is_numeric cash_balance = false \/ is_numeric monthly_burn = false ->
         calculate_runway cash_balance monthly_burn = Raise ValueError)
  /\ (forall revenues expenses : num,
         calculate_burn_rate (VNum revenues) (VNum expenses)
         = (d <- sub expenses revenues ;; Ok (VNum d)))
  /\ (forall current previous : value,
         veq0 previous = true ->
         calculate_mom_growth current previous = Ok (VNum (Int 0)))
  /\ (forall ltv cac : value,
         veq0 cac = true ->
         calculate_ltv_cac_ratio ltv cac = Ok (VNum (Int 0))).
Proof.
  split; [|split; [|split; [reflexivity|split]]].
  - intros r e [H|H]; unfold calculate_burn_rate; rewrite H; simpl;
      [reflexivity|]. rewrite orb_true_r. reflexivity.
  - intros c b [H|H]; unfold calculate_runway; rewrite H; simpl;
      [reflexivity|]. rewrite orb_true_r. reflexivity.
  - intros c p H. unfold calculate_mom_growth. rewrite H. reflexivity.
  - intros l c H. unfold calculate_ltv_cac_ratio. rewrite H. reflexivity.
Qed.

Lemma validation_of_scalar_formulas_witness :
  calculate_burn_rate (VStr "8000") (VNum (Int 20000)) = Raise ValueError
  /\ calculate_runway (VNum (Int 100000)) VNone = Raise ValueError
  /\ calculate_burn_rate (VNum (Int 8000)) (VNum (Int 20000))
     = Ok (VNum (Int 12000))
  /\ calculate_mom_growth (VStr "abc") (VNum (Float (-0))) = Ok (VNum (Int 0))
  /\ calculate_ltv_cac_ratio VNone (VNum (Float 0)) = Ok (VNum (Int 0)).
Proof.
  destruct validation_of_scalar_formulas as (Hb & Hr & Hn & Hm & Hl).
  split; [apply Hb; left; reflexivity|].
  split; [apply Hr; right; reflexivity|].
  split; [rewrite Hn; reflexivity|].
  split; [apply Hm; reflexivity | apply Hl; reflexivity].
Defined.

(** C9 as stated fails: [calculate_mom_growth] and [calculate_ltv_cac_ratio]
    accept a string or [None] as their first argument without raising. *)
Lemma unvalidated_argument_counterexample :
  calculate_mom_growth (VStr "abc") (VNum (Int 0)) = Ok (VNum (Int 0))
  /\ calculate_ltv_cac_ratio VNone (VNum (Float 0)) = Ok (VNum (Int 0)).
Proof. split; reflexivity. Qed.

(** ** Horizon and period 0 *)




(** *** The revenue of period 0 *)




















(** * Further properties *)

(** ** Revenue projection: the Fixed model, the floor, an empty horizon *)

Lemma fixed_loop (R : num) (model_lc model_eb : num) (n a : nat) (acc : list num) :
  for_each (seq a n)
    (fun month revenues =>
       revenue <- revenue_at R FIXED model_lc model_eb month ;;
       Ok (revenues ++ [max0 revenue])) acc
  = Ok (acc ++ repeat (max0 R) n).
Proof.
  revert a acc. induction n as [|n IH]; intros a acc; simpl.
  - now rewrite app_nil_r.
  - rewrite IH, <- app_assoc. reflexivity.
Qed.

(** X1.  Under the Fixed model [calculate_revenue_projection] never raises:
    for every horizon it returns [months + 1] copies of [max(0,
    initial_revenue)] (none when [months < 0]), whatever the two growth
    coefficients are. *)
Theorem fixed_revenue_constant :
  forall (R : num) (months : Z) (p e : num),
    calculate_revenue_projection R months FIXED p e
    = Ok (repeat (max0 R) (Z.to_nat (months + 1))).
Proof.
  intros R months p e. unfold calculate_revenue_projection, range.
  apply (fixed_loop R p e (Z.to_nat (months + 1)) 0 []).
Qed.

Lemma gt0_not_lt0 x : gt0 x = true -> lt0 x = false.
Proof.
  destruct x as [z|f]; simpl.
  - intros H. apply Z.ltb_lt in H. apply Z.ltb_ge. lia.
  - intros H. apply ltb0_nonneg, gtb0_nonneg, H.
Qed.

(** X2.  No element of a revenue projection is negative or a NaN: each one
    is either the int [0] or a number above zero, under every model. *)
Theorem revenue_projection_floor :
  forall (R : num) (months : Z) (model : GrowthModel) (p e : num) (l : list num),
    calculate_revenue_projection R months model p e = Ok l ->
    Forall (fun x => (x = Int 0 \/ gt0 x = true) /\ lt0 x = false) l.
Proof.
  intros R months model p e l H.
  apply revenue_projection_series in H as (vs & _ & ->).
  apply Forall_forall. intros x Hx. apply in_map_iff in Hx as (v & <- & _).
  unfold max0. destruct (gt0 v) eqn:E.
  - split; [right; exact E | apply gt0_not_lt0, E].
  - split; [left; reflexivity | reflexivity].
Qed.

Lemma revenue_projection_floor_witness :
  calculate_revenue_projection (Int 100) 3 LINEAR (Int (-50)) (Int 0)
  = Ok [Float 100; Float 50; Int 0; Int 0]
  /\ Forall (fun x => (x = Int 0 \/ gt0 x = true) /\ lt0 x = false)
       [Float 100; Float 50; Int 0; Int 0].
Proof.
  split; [vm_compute; reflexivity|].
  apply (revenue_projection_floor (Int 100) 3 LINEAR (Int (-50)) (Int 0)).
  vm_compute. reflexivity.
Defined.

Lemma range_empty (months : Z) : (months < 0)%Z -> range (months + 1) = [].
Proof.
  intros H. unfold range.
  replace (Z.to_nat (months + 1)) with 0%nat by lia. reflexivity.
Qed.

(** X3.  With a negative horizon the month loops do not run: the revenue
    projection, the customer flow and the total-only customer projection
    return empty sequences without raising, and every scenario result
    carries no label and no cash value. *)
Theorem negative_horizon_is_empty :
  forall months : Z, (months < 0)%Z ->
    (forall R model p e,
        calculate_revenue_projection R months model p e = Ok [])
    /\ (forall initial new_customers churn model lg eg,
           calculate_customer_flow initial new_customers churn months model
             lg eg = Ok ([], [], []))
    /\ (forall b2b b2c model lg eg,
           calculate_customer_projection b2b b2c months model lg eg
           = Ok (dict_set [(type b2b, [])] (type b2c) []))
    /\ (forall now cash mr me scenarios model lc eb ps,
           generate_scenario_projections now cash mr me months scenarios
             model lc eb = Ok ps ->
           Forall (fun p : string * list string * list num * string =>
                     snd (fst (fst p)) = [] /\ snd (fst p) = []) ps).
Proof.
  intros months Hm. pose proof (range_empty Hm) as Hr.
  split; [|split; [|split]].
  - intros. unfold calculate_revenue_projection. rewrite Hr. reflexivity.
  - intros. unfold calculate_customer_flow. rewrite Hr. reflexivity.
  - intros. unfold calculate_customer_projection, customer_series.
    rewrite Hr. reflexivity.
  - intros now cash mr me scenarios model lc eb ps H.
    apply scenario_projections_each in H.
    induction H as [|sc p scs ps Hp _ IH]; constructor; [|exact IH].
    apply scenario_projection_result in Hp.
    destruct p as [[[n dates] cashs] col].
    destruct Hp as (_ & _ & Hdates & air & ae & lc' & eb' & revs & cf
                    & _ & _ & _ & _ & _ & Htr).
    rewrite Hr in Hdates, Htr. cbn [fst snd].
    inversion Hdates; inversion Htr; subst. split; reflexivity.
Qed.

Lemma negative_horizon_is_empty_witness :
  (-1 < 0)%Z
  /\ calculate_customer_flow 100 10 (Float 5) (-1) EXPONENTIAL (Int 0) (Float 10)
     = Ok ([], [], []).
Proof.
  assert (H : (-1 < 0)%Z) by lia. split; [exact H|].
  apply (proj1 (proj2 (negative_horizon_is_empty H))).
Defined.

(** ** The dict of the total-only projection *)

Lemma dict_get_set_same {V : Type} (d : list (CustomerType * V)) k v :
  dict_get (dict_set d k v) k = Some v.
Proof.
  induction d as [|[k' v'] d IH]; simpl.
  - destruct k; reflexivity.
  - destruct k, k'; simpl; auto.
Qed.

(** X4.  The result of [calculate_customer_projection] is keyed by the
    segments' [type]: looking up the second segment's type always gives the
    second segment's series; looking up the first segment's type gives the
    first segment's series only when the two types differ.  When both
    segments carry the same type the dict has a single entry and the first
    segment's series is lost. *)
Theorem customer_projection_keys :
  forall (b2b b2c : CustomerMetrics) (months : Z) (model : GrowthModel)
         (linear_growth : Z) (exponential_growth : num)
         (d : list (CustomerType * list Z)),
    calculate_customer_projection b2b b2c months model linear_growth
      exponential_growth = Ok d ->
    exists l1 l2,
      customer_series b2b months model linear_growth exponential_growth = Ok l1
      /\ customer_series b2c months model linear_growth exponential_growth = Ok l2
      /\ dict_get d (type b2c) = Some l2
      /\ (type b2b <> type b2c ->
          d = [(type b2b, l1); (type b2c, l2)]
          /\ dict_get d (type b2b) = Some l1)
      /\ (type b2b = type b2c -> d = [(type b2c, l2)]).
Proof.
  intros b2b b2c months model lg eg d H.
  apply customer_projection_segments in H as (l1 & l2 & H1 & H2 & ->).
  exists l1, l2. split; [exact H1|]. split; [exact H2|].
  split; [apply dict_get_set_same|].
  destruct (type b2b), (type b2c); simpl; split; intros E;
    try congruence; try (exfalso; apply E; reflexivity); auto.
Qed.

Lemma customer_projection_keys_witness :
  exists l1 l2,
    customer_series (segment 100 10 (Int 2) B2B) 2 FIXED 0 (Int 0) = Ok l1
    /\ customer_series (segment 80 15 (Int 5) B2B) 2 FIXED 0 (Int 0) = Ok l2
    /\ dict_get [(B2B, [80; 95; 110]%Z)] B2B = Some l2
    /\ (B2B <> B2B ->
        [(B2B, [80; 95; 110]%Z)] = [(B2B, l1); (B2B, l2)]
        /\ dict_get [(B2B, [80; 95; 110]%Z)] B2B = Some l1)
    /\ (B2B = B2B -> [(B2B, [80; 95; 110]%Z)] = [(B2B, l2)]).
Proof.
  apply (customer_projection_keys (segment 100 10 (Int 2) B2B)
           (segment 80 15 (Int 5) B2B) 2 FIXED 0 (Int 0)).
  vm_compute. reflexivity.
Defined.

(** X5.  Under the Exponential model the total recorded at period [k + 1]
    is [int(initial_total * (1 + rate/100) ** k)]: the total recomputed at
    the end of month [k] with that month's exponent.  The curve is one period
    late: period 1 carries the exponent 0. *)
Theorem exponential_projection_lag :
  forall (b2b b2c : CustomerMetrics) (months : Z) (linear_growth : Z)
         (exponential_growth : num) (d : list (CustomerType * list Z)),
    calculate_customer_projection b2b b2c months EXPONENTIAL linear_growth
      exponential_growth = Ok d ->
    exists l1 l2,
      d = dict_set [(type b2b, l1)] (type b2c) l2
      /\ (forall k v, nth_error l1 (Datatypes.S k) = Some v ->
                      Spec.exponential_total (total b2b) exponential_growth k
                      = Ok v)
      /\ (forall k v, nth_error l2 (Datatypes.S k) = Some v ->
                      Spec.exponential_total (total b2c) exponential_growth k
                      = Ok v).
Proof.
  intros b2b b2c months lg eg d H.
  apply customer_projection_segments in H as (l1 & l2 & H1 & H2 & ->).
  exists l1, l2. split; [reflexivity|].
  split; intros k v Hv; eapply exponential_series_lag; eauto.
Qed.

Lemma exponential_projection_lag_witness :
  exists l1 l2,
    [(B2B, [100; 100; 110; 121]%Z); (B2C, [80; 80; 88; 96]%Z)]
    = dict_set [(B2B, l1)] B2C l2
    /\ (forall k v, nth_error l1 (Datatypes.S k) = Some v ->
                    Spec.exponential_total 100 (Int 10) k = Ok v)
    /\ (forall k v, nth_error l2 (Datatypes.S k) = Some v ->
                    Spec.exponential_total 80 (Int 10) k = Ok v).
Proof.
  apply (exponential_projection_lag (segment 100 10 (Int 2) B2B)
           (segment 80 15 (Int 5) B2C) 3 0 (Int 10)).
  vm_compute. reflexivity.
Defined.

(** ** The total-only projection under Fixed and Linear *)

Lemma fixed_customer_loop (metrics : CustomerMetrics) (lg : Z) (eg : num)
  (n a : nat) (acc : list Z) (c : Z) :
  for_each (seq a n) (customer_step metrics FIXED lg eg) (acc, c)
  = Ok (acc ++ map (fun k => c + Z.of_nat k * new metrics)%Z (seq 0 n),
        (c + Z.of_nat n * new metrics)%Z).
Proof.
  revert a acc c. induction n as [|n IH]; intros a acc c.
  - simpl. rewrite app_nil_r. do 2 f_equal. lia.
  - cbn [seq for_each customer_step customer_update bind].
    rewrite IH, <- app_assoc. do 2 f_equal; [f_equal | lia].
    cbn [app map]. f_equal.
    + change (Z.of_nat 0) with 0%Z. ring.
    + rewrite <- seq_shift, map_map. apply map_ext. intros k. lia.
Qed.

Lemma triangle_succ (j : Z) :
  (0 <= j)%Z -> ((j + 1) * (j + 1 - 1) / 2 = j + j * (j - 1) / 2)%Z.
Proof.
  intros Hj. replace ((j + 1) * (j + 1 - 1))%Z with (j * (j - 1) + j * 2)%Z by ring.
  rewrite Z.div_add by lia. ring.
Qed.

Lemma linear_customer_loop (metrics : CustomerMetrics) (lg : Z) (eg : num)
  (n a : nat) (acc : list Z) (c : Z) :
  exists cf,
    for_each (seq a n) (customer_step metrics LINEAR lg eg) (acc, c)
    = Ok (acc ++ map (fun k => c + Z.of_nat k * new metrics
                               + lg * (Z.of_nat a * Z.of_nat k
                                       + Z.of_nat k * (Z.of_nat k - 1) / 2))%Z
                   (seq 0 n),
          cf).
Proof.
  revert a acc c. induction n as [|n IH]; intros a acc c.
  - exists c. simpl. rewrite app_nil_r. reflexivity.
  - cbn [seq for_each customer_step customer_update bind].
    destruct (IH (Datatypes.S a) (acc ++ [c])
                (c + (new metrics + lg * Z.of_nat a))%Z) as (cf & ->).
    exists cf. rewrite <- app_assoc. do 3 f_equal.
    cbn [app map]. f_equal.
    + change (Z.of_nat 0) with 0%Z. change (0 * (0 - 1) / 2)%Z with 0%Z. ring.
    + rewrite <- seq_shift, map_map. apply map_ext. intros k.
      rewrite !Nat2Z.inj_succ. unfold Z.succ.
      rewrite (@triangle_succ (Z.of_nat k)) by lia. ring.
Qed.

(** X6.  Under the Fixed and Linear models [calculate_customer_projection]
    never raises, for any segments and any horizon: the series of a segment
    is [total + m * new] under Fixed and
    [total + m * new + linear_growth * (m * (m - 1) / 2)] under Linear, for
    the periods [m = 0 .. months].  No churn is subtracted and the total is
    not clamped, so a negative [new] drives it below zero. *)
Theorem customer_projection_closed_form :
  forall (b2b b2c : CustomerMetrics) (months : Z) (linear_growth : Z)
         (exponential_growth : num),
    calculate_customer_projection b2b b2c months FIXED linear_growth
      exponential_growth
    = Ok (dict_set [(type b2b, map (fixed_total b2b) (range (months + 1)))]
            (type b2c) (map (fixed_total b2c) (range (months + 1))))
    /\ calculate_customer_projection b2b b2c months LINEAR linear_growth
         exponential_growth
       = Ok (dict_set
               [(type b2b, map (linear_total b2b linear_growth)
                             (range (months + 1)))]
               (type b2c)
               (map (linear_total b2c linear_growth) (range (months + 1)))).
Proof.
  intros b2b b2c months lg eg.
  assert (HF : forall m,
             customer_series m months FIXED lg eg
             = Ok (map (fixed_total m) (range (months + 1)))).
  { intros m. unfold customer_series, range.
    rewrite fixed_customer_loop. reflexivity. }
  assert (HL : forall m,
             customer_series m months LINEAR lg eg
             = Ok (map (linear_total m lg) (range (months + 1)))).
  { intros m. unfold customer_series, range.
    destruct (linear_customer_loop m lg eg (Z.to_nat (months + 1)) 0 []
                (total m)) as (cf & ->).
    cbn [bind fst app]. apply f_equal. apply map_ext. intros k.
    unfold linear_total. change (Z.of_nat 0) with 0%Z.
    rewrite Z.mul_0_l, Z.add_0_l. reflexivity. }
  unfold calculate_customer_projection. cbn [for_each].
  rewrite !HF, !HL. split; reflexivity.
Qed.

(** ** Scenarios *)

Lemma for_each_collect_eq {X Y S : Type} (f : X -> result Y) (h : Y -> S)
  (xs : list X) (acc : list S) :
  for_each xs (fun x acc => v <- f x ;; Ok (acc ++ [h v])) acc
  = (vs <- comprehension f xs ;; Ok (acc ++ map h vs)).
Proof.
  revert acc. induction xs as [|x xs IH]; intros acc; simpl.
  - now rewrite app_nil_r.
  - destruct (f x) as [v|e]; simpl; [|reflexivity].
    rewrite IH. destruct (comprehension f xs) as [vs|e]; simpl; [|reflexivity].
    now rewrite <- app_assoc.
Qed.

Lemma comprehension_app {X Y : Type} (f : X -> result Y) (xs ys : list X) :
  comprehension f (xs ++ ys)
  = (a <- comprehension f xs ;; b <- comprehension f ys ;; Ok (a ++ b)).
Proof.
  induction xs as [|x xs IH]; simpl.
  - destruct (comprehension f ys); reflexivity.
  - destruct (f x) as [v|e]; simpl; [|reflexivity].
    rewrite IH. destruct (comprehension f xs) as [a|e]; simpl; [|reflexivity].
    destruct (comprehension f ys); reflexivity.
Qed.

Lemma scenario_projections_map now cash mr me months scenarios model lc eb :
  generate_scenario_projections now cash mr me months scenarios model lc eb
  = comprehension (scenario_projection now cash mr me months model lc eb)
      scenarios.
Proof.
  unfold generate_scenario_projections.
  rewrite (for_each_collect_eq
             (scenario_projection now cash mr me months model lc eb)
             (fun p => p)).
  destruct (comprehension _ scenarios) as [vs|e]; simpl; [|reflexivity].
  now rewrite map_id.
Qed.

(** X7.  Scenarios do not interact: projecting a list of scenarios that is
    the concatenation of two lists gives the results of the first list
    followed by the results of the second, and raises what the first failing
    scenario raises.  In particular an empty list of scenarios gives an
    empty result. *)
Theorem scenario_projections_compose :
  forall (now : Z) (cash_balance monthly_revenue monthly_expenses : num)
         (months : Z) (s1 s2 : list Scenario) (revenue_model : GrowthModel)
         (linear_coefficient exponential_base : num),
    generate_scenario_projections now cash_balance monthly_revenue
      monthly_expenses months (s1 ++ s2) revenue_model linear_coefficient
      exponential_base
    = (p1 <- generate_scenario_projections now cash_balance monthly_revenue
               monthly_expenses months s1 revenue_model linear_coefficient
               exponential_base ;;
       p2 <- generate_scenario_projections now cash_balance monthly_revenue
               monthly_expenses months s2 revenue_model linear_coefficient
               exponential_base ;;
       Ok (p1 ++ p2)).
Proof.
  intros. rewrite !scenario_projections_map. apply comprehension_app.
Qed.

Lemma scenario_projection_same now cash mr me months model lc eb s s' :
  same_but_customer_growth s s' ->
  scenario_projection now cash mr me months model lc eb s
  = scenario_projection now cash mr me months model lc eb s'.
Proof.
  intros (Hn & Hr & He & Hc). unfold scenario_projection.
  rewrite Hn, Hr, He, Hc. reflexivity.
Qed.

(** X8.  The [customer_growth_multiplier] of a scenario has no effect on
    [generate_scenario_projections]: two lists of scenarios that agree,
    position by position, on name, revenue multiplier, expense multiplier
    and colour give the same result (the same projections or the same
    exception). *)
Theorem scenario_projections_ignore_customer_growth :
  forall (now : Z) (cash_balance monthly_revenue monthly_expenses : num)
         (months : Z) (scenarios scenarios' : list Scenario)
         (revenue_model : GrowthModel)
         (linear_coefficient exponential_base : num),
    Forall2 same_but_customer_growth scenarios scenarios' ->
    generate_scenario_projections now cash_balance monthly_revenue
      monthly_expenses months scenarios revenue_model linear_coefficient
      exponential_base
    = generate_scenario_projections now cash_balance monthly_revenue
        monthly_expenses months scenarios' revenue_model linear_coefficient
        exponential_base.
Proof.
  intros now cash mr me months scs scs' model lc eb H.
  rewrite !scenario_projections_map.
  induction H as [|s s' scs scs' Hs _ IH]; simpl; [reflexivity|].
  rewrite (scenario_projection_same now cash mr me months model lc eb Hs), IH.
  reflexivity.
Qed.

Lemma scenario_projections_ignore_customer_growth_witness :
  generate_scenario_projections 739924 (Float 100000) (Float 10000)
    (Float 20000) 2 canonical_scenarios FIXED (Float 0) (Float 0)
  = generate_scenario_projections 739924 (Float 100000) (Float 10000)
      (Float 20000) 2
      (map (fun s => {| name := name s;
                        revenue_multiplier := revenue_multiplier s;
                        expense_multiplier := expense_multiplier s;
                        customer_growth_multiplier := Int 7;
                        color := color s |}) canonical_scenarios)
      FIXED (Float 0) (Float 0).
Proof.
  apply scenario_projections_ignore_customer_growth.
  repeat constructor.
Defined.

(** ** The runway projection *)

Lemma Forall2_nth_error_r {X Y : Type} (R : X -> Y -> Prop) (xs : list X)
  (ys : list Y) :
  Forall2 R xs ys ->
  forall i y, nth_error ys i = Some y ->
  exists x, nth_error xs i = Some x /\ R x y.
Proof.
  induction 1 as [|x0 y0 xs ys H0 _ IH]; intros [|i] y; simpl; try discriminate.
  - intros [= <-]. eauto.
  - apply IH.
Qed.

Lemma range_nth_inv (n : Z) (i x : nat) : nth_error (range n) i = Some x -> x = i.
Proof.
  intros H. unfold range in H.
  assert (Hi : (i < List.length (seq 0 (Z.to_nat n)))%nat)
    by (apply nth_error_Some; congruence).
  rewrite length_seq in Hi.
  rewrite nth_error_nth' with (d := O) in H by (rewrite length_seq; exact Hi).
  rewrite seq_nth in H by exact Hi. injection H as <-. reflexivity.
Qed.

(** X9.  When [generate_runway_projection] returns, its two lists are
    parallel: both have [int(runway_months) + 1] entries, the cash of period
    [m] is [cash_balance - burn_rate * m] and its label is the month thirty
    days times [m] after the clock's day.  A runway that is a NaN raises
    [ValueError] and an infinite runway raises [OverflowError], before
    anything is computed. *)
Theorem runway_projection_points :
  (forall (now : Z) (cash_balance burn_rate runway_months : num)
          (dates : list string) (cash : list num),
      generate_runway_projection now cash_balance burn_rate runway_months
      = Ok (dates, cash) ->
      exists n,
        int runway_months = Ok n
        /\ List.length dates = Z.to_nat (n + 1)
        /\ List.length cash = Z.to_nat (n + 1)
        /\ (forall m v, nth_error cash m = Some v ->
                        (t <- mul burn_rate (month_num m) ;; sub cash_balance t)
                        = Ok v)
        /\ (forall m d, nth_error dates m = Some d ->
                        Clock.label now m = Ok d))
  /\ (forall now cash_balance burn_rate,
         generate_runway_projection now cash_balance burn_rate (Float nan)
         = Raise ValueError
         /\ generate_runway_projection now cash_balance burn_rate
              (Float infinity) = Raise OverflowError
         /\ generate_runway_projection now cash_balance burn_rate
              (Float neg_infinity) = Raise OverflowError).
Proof.
  split.
  - intros now cash burn runway dates l H.
    unfold generate_runway_projection in H.
    apply bind_Ok in H as (n & Hn & H).
    apply bind_Ok in H as (l' & Hl & H).
    apply bind_Ok in H as (dates' & Hd & H).
    injection H as <- <-. exists n. split; [exact Hn|].
    apply comprehension_Forall2 in Hl, Hd.
    pose proof (Forall2_length Hl) as Ll.
    pose proof (Forall2_length Hd) as Ld.
    unfold range in Ll, Ld. rewrite length_seq in Ll, Ld.
    split; [congruence|]. split; [congruence|]. split.
    + intros m v Hv.
      destruct (Forall2_nth_error_r Hl m Hv) as (x & Hx & Hr).
      apply range_nth_inv in Hx. subst x. exact Hr.
    + intros m d Hm.
      destruct (Forall2_nth_error_r Hd m Hm) as (x & Hx & Hr).
      apply range_nth_inv in Hx. subst x. exact Hr.
  - intros. repeat split; reflexivity.
Qed.

Lemma runway_projection_points_witness :
  generate_runway_projection 739924 (Float 100000) (Float 12000) (Float 2.5)
  = Ok (["2026-11"; "2026-12"; "2027-01"]%string,
        [Float 100000; Float 88000; Float 76000])
  /\ exists n,
       int (Float 2.5) = Ok n
       /\ List.length ["2026-11"; "2026-12"; "2027-01"]%string = Z.to_nat (n + 1)
       /\ List.length [Float 100000; Float 88000; Float 76000] = Z.to_nat (n + 1)
       /\ (forall m v,
              nth_error [Float 100000; Float 88000; Float 76000] m = Some v ->
              (t <- mul (Float 12000) (month_num m) ;; sub (Float 100000) t)
              = Ok v)
       /\ (forall m d,
              nth_error ["2026-11"; "2026-12"; "2027-01"]%string m = Some d ->
              Clock.label 739924 m = Ok d).
Proof.
  split; [vm_compute; reflexivity|].
  apply (proj1 runway_projection_points 739924%Z (Float 100000) (Float 12000)
           (Float 2.5)).
  vm_compute. reflexivity.
Defined.

(** X10.  A company that does not burn cash gets a one-point chart: when
    [burn_rate <= 0], [calculate_runway] returns [0] and
    [generate_runway_projection], called with that runway as [main] does,
    returns the single period 0 with the cash [cash_balance - burn_rate * 0]
    and the label of the clock's month. *)
Theorem runway_projection_without_burn :
  forall (now : Z) (cash_balance burn_rate runway_months : num),
    le0 burn_rate = true ->
    calculate_runway (VNum cash_balance) (VNum burn_rate)
    = Ok (VNum runway_months) ->
    runway_months = Int 0
    /\ generate_runway_projection now cash_balance burn_rate runway_months
       = (t <- mul burn_rate (Int 0) ;;
          v <- sub cash_balance t ;;
          d <- Clock.label now 0 ;;
          Ok ([d], [v])).
Proof.
  intros now cash burn runway Hb H.
  unfold calculate_runway, vle0 in H. simpl in H. rewrite Hb in H.
  injection H as <-. split; [reflexivity|].
  unfold generate_runway_projection. cbn [int bind].
  change (range (0 + 1)) with [0%nat]. cbn [comprehension].
  change (month_num 0) with (Int 0).
  destruct (mul burn (Int 0)) as [t|e]; [|reflexivity]. cbn [bind].
  destruct (sub cash t) as [v|e]; [|reflexivity]. cbn [bind].
  destruct (Clock.label now 0); reflexivity.
Qed.

Lemma runway_projection_without_burn_witness :
  le0 (Float (-2500)) = true
  /\ calculate_runway (VNum (Float 100000)) (VNum (Float (-2500)))
     = Ok (VNum (Int 0))
  /\ generate_runway_projection 739924 (Float 100000) (Float (-2500)) (Int 0)
     = Ok (["2026-11"%string], [Float 100000]).
Proof.
  assert (H1 : le0 (Float (-2500)) = true) by reflexivity.
  assert (H2 : calculate_runway (VNum (Float 100000)) (VNum (Float (-2500)))
               = Ok (VNum (Int 0))) by reflexivity.
  split; [exact H1|]. split; [exact H2|].
  rewrite (proj2 (@runway_projection_without_burn 739924%Z _ _ _ H1 H2)).
  vm_compute. reflexivity.
Defined.

(** ** The customer flow, period by period *)

Lemma flow_run_entries new_customers churn_rate growth_model linear_growth
  exponential_growth (k : nat) :
  forall (a : nat) c ns cs ts cf,
    flow_run new_customers churn_rate growth_model linear_growth
      exponential_growth (seq a k) c ns cs ts cf ->
    forall m n ch,
      nth_error ns m = Some n -> nth_error cs m = Some ch ->
      new_at new_customers growth_model linear_growth exponential_growth
        (a + m) = Ok n
      /\ churned_at churn_rate
           (match m with O => c | Datatypes.S j => nth j ts 0%Z end) = Ok ch.
Proof.
  induction k as [|k IH]; intros a c ns cs ts cf Hrun m n ch Hn Hch;
    simpl in Hrun; inversion Hrun; subst.
  - destruct m; discriminate.
  - destruct m as [|m]; simpl in Hn, Hch.
    + injection Hn as <-. injection Hch as <-.
      rewrite Nat.add_0_r. split; assumption.
    + match goal with
      | Hr : flow_run _ _ _ _ _ (seq (Datatypes.S a) k) _ _ _ _ _ |- _ =>
          destruct (IH _ _ _ _ _ _ Hr m n ch Hn Hch) as (E1 & E2)
      end.
      rewrite Nat.add_succ_r. split; [exact E1|].
      destruct m; exact E2.
Qed.

(** X11.  In the customer flow the new customers of period [m] are the
    growth model applied to the initial [new_customers] at month [m]: the
    constant [new_customers] under Fixed,
    [int(new_customers * (1 + (linear_growth / 100) * m))] under Linear and
    [int(new_customers * (1 + exponential_growth / 100) ** m)] under
    Exponential.  The churned customers of period [m] are
    [int(total * (churn_rate / 100))] of the total carried over from the
    period before (the initial total in period 0): churn is taken before the
    period's new customers are added. *)
Theorem customer_flow_entries :
  forall (initial_customers new_customers : Z) (churn_rate : num) (months : Z)
         (growth_model : GrowthModel) (linear_growth exponential_growth : num)
         (news churned totals : list Z),
    calculate_customer_flow initial_customers new_customers churn_rate months
      growth_model linear_growth exponential_growth
    = Ok (news, churned, totals) ->
    forall m n ch,
      nth_error news m = Some n -> nth_error churned m = Some ch ->
      Spec.new_in_period new_customers growth_model linear_growth
        exponential_growth m = Ok n
      /\ Spec.churned_in_period
           (match m with
            | O => initial_customers
            | Datatypes.S j => nth j totals 0%Z
            end) churn_rate = Ok ch.
Proof.
  intros i nc cr months gm lg eg news churned totals H m n ch Hn Hch.
  apply customer_flow_run in H as (cf & Hrun). unfold range in Hrun.
  destruct (@flow_run_entries _ _ _ _ _ _ 0%nat _ _ _ _ _ Hrun m n ch Hn Hch)
    as (E1 & E2).
  split.
  - destruct gm; exact E1.
  - exact E2.
Qed.

Lemma customer_flow_entries_witness :
  calculate_customer_flow 100 10 (Float 50) 3 LINEAR (Float 100) (Float 0)
  = Ok ([10; 20; 30; 40], [50; 30; 25; 27], [60; 50; 55; 68])%Z
  /\ Spec.new_in_period 10 LINEAR (Float 100) (Float 0) 2 = Ok 30%Z
  /\ Spec.churned_in_period (nth 1 [60; 50; 55; 68]%Z 0%Z) (Float 50)
     = Ok 25%Z
  /\ calculate_customer_flow 100 10 (Float 0) 3 EXPONENTIAL (Float 0)
       (Float 100)
     = Ok ([10; 20; 40; 80], [0; 0; 0; 0], [110; 130; 170; 250])%Z
  /\ Spec.new_in_period 10 EXPONENTIAL (Float 0) (Float 100) 3 = Ok 80%Z.
Proof.
  split; [vm_compute; reflexivity|].
  assert (L : calculate_customer_flow 100 10 (Float 50) 3 LINEAR (Float 100)
                (Float 0)
              = Ok ([10; 20; 30; 40], [50; 30; 25; 27], [60; 50; 55; 68])%Z)
    by (vm_compute; reflexivity).
  assert (E : calculate_customer_flow 100 10 (Float 0) 3 EXPONENTIAL (Float 0)
                (Float 100)
              = Ok ([10; 20; 40; 80], [0; 0; 0; 0], [110; 130; 170; 250])%Z)
    by (vm_compute; reflexivity).
  destruct (customer_flow_entries _ _ _ _ _ _ _ L 2%nat
              (n := 30%Z) (ch := 25%Z) eq_refl eq_refl) as (L1 & L2).
  destruct (customer_flow_entries _ _ _ _ _ _ _ E 3%nat
              (n := 80%Z) (ch := 0%Z) eq_refl eq_refl) as (E1 & _).
  split; [exact L1|]. split; [exact L2|]. split; [exact E|exact E1].
Defined.

(** A float that compares equal to zero is a zero. *)
Lemma eqb0_zero f : (f =? 0)%float = true -> exists s, Prim2SF f = S754_zero s.
Proof.
  rewrite eqb_spec, Prim2SF_zero. unfold SFeqb.
  destruct (Prim2SF f) as [s|[|]| |[|] m e]; simpl; try discriminate.
  intros _. exists s. reflexivity.
Qed.

(** Nothing churns at a churn rate of zero. *)
Lemma churned_at_zero churn_rate c ch :
  eq0 churn_rate = true -> churned_at churn_rate c = Ok ch -> ch = 0%Z.
Proof.
  intros Hz H. unfold churned_at in H.
  assert (Hr : forall r, truediv churn_rate (Int 100) = Ok r ->
                         exists f s, r = Float f /\ Prim2SF f = S754_zero s).
  { destruct churn_rate as [z|f]; simpl in Hz.
    - apply Z.eqb_eq in Hz. subst z. intros r [= <-].
      exists 0%float, false. split; reflexivity.
    - intros r Hq. unfold truediv in Hq. cbn [to_float bind] in Hq.
      change (float_of_int 100) with (Ok 100%float) in Hq. cbn [bind] in Hq.
      change (100 =? 0)%float with false in Hq. injection Hq as <-.
      destruct (eqb0_zero Hz) as (s & Hs).
      exists (f / 100)%float, s. split; [reflexivity|].
      rewrite div_spec, Hs. destruct s; reflexivity. }
  apply bind_Ok in H as (r & Hq & H).
  destruct (Hr r Hq) as (f & s & -> & Hs).
  apply bind_Ok in H as (x & Hx & H).
  unfold mul, arith in Hx. cbn [to_float] in Hx.
  apply bind_Ok in Hx as (a & Ha & Hx). cbn [bind] in Hx. injection Hx as <-.
  unfold int, trunc_float in H. rewrite mul_spec, Hs in H.
  destruct (Prim2SF a) as [sa|sa| |sa ma ea]; simpl in H;
    try discriminate; injection H as <-; reflexivity.
Qed.

Lemma flow_run_without_churn new_customers churn_rate lg eg (k : nat) :
  eq0 churn_rate = true -> (0 <= new_customers)%Z ->
  forall (a : nat) c ns cs ts cf,
    (0 <= c)%Z ->
    flow_run new_customers churn_rate FIXED lg eg (seq a k) c ns cs ts cf ->
    forall m, (m < k)%nat ->
      nth_error ns m = Some new_customers
      /\ nth_error cs m = Some 0%Z
      /\ nth_error ts m = Some (c + (Z.of_nat m + 1) * new_customers)%Z.
Proof.
  intros Hz Hn. induction k as [|k IH]; intros a c ns cs ts cf Hc Hrun m Hm;
    [lia|].
  simpl in Hrun. inversion Hrun as [|? ? ? n ch ns' cs' ts' ? Hnew Hch Hrest];
    subst.
  simpl in Hnew. injection Hnew as <-.
  apply (@churned_at_zero _ _ _ Hz) in Hch. subst ch.
  replace (Z.max 0 (c + new_customers - 0)) with (c + new_customers)%Z in * by lia.
  destruct m as [|m]; cbn [nth_error].
  - repeat split. change (Z.of_nat 0) with 0%Z. f_equal. ring.
  - destruct (IH (Datatypes.S a) (c + new_customers)%Z ns' cs' ts' cf
                ltac:(lia) Hrest m ltac:(lia)) as (E1 & E2 & E3).
    repeat split; try assumption. rewrite E3, Nat2Z.inj_succ.
    unfold Z.succ. f_equal. ring.
Qed.

(** X12.  With a churn rate of zero and the Fixed model, a flow that starts
    from non-negative counts loses nobody and grows by [new_customers] per
    period: in every period [m] of [0..months] the new customers are
    [new_customers], the churned customers are [0] and the total is
    [initial_customers + (m + 1) * new_customers]. *)
Theorem customer_flow_without_churn :
  forall (initial_customers new_customers : Z) (churn_rate : num) (months : Z)
         (linear_growth exponential_growth : num)
         (news churned totals : list Z) (m : nat),
    eq0 churn_rate = true ->
    (0 <= initial_customers)%Z -> (0 <= new_customers)%Z ->
    (Z.of_nat m <= months)%Z ->
    calculate_customer_flow initial_customers new_customers churn_rate months
      FIXED linear_growth exponential_growth
    = Ok (news, churned, totals) ->
    nth_error news m = Some new_customers
    /\ nth_error churned m = Some 0%Z
    /\ nth_error totals m
       = Some (initial_customers + (Z.of_nat m + 1) * new_customers)%Z.
Proof.
  intros i nc cr months lg eg news churned totals m Hz Hi Hn Hm H.
  apply customer_flow_run in H as (cf & Hrun). unfold range in Hrun.
  eapply flow_run_without_churn; eauto. lia.
Qed.

Lemma customer_flow_without_churn_witness :
  calculate_customer_flow 20 5 (Float 0) 3 FIXED (Float 10) (Float 3)
  = Ok ([5; 5; 5; 5], [0; 0; 0; 0], [25; 30; 35; 40])%Z
  /\ nth_error [25; 30; 35; 40]%Z 2 = Some (20 + (Z.of_nat 2 + 1) * 5)%Z.
Proof.
  split; [vm_compute; reflexivity|].
  apply (@customer_flow_without_churn 20 5 (Float 0) 3 (Float 10) (Float 3)
           [5; 5; 5; 5]%Z [0; 0; 0; 0]%Z [25; 30; 35; 40]%Z 2%nat);
    try (vm_compute; reflexivity); lia.
Defined.

(** ** The metrics block of [main] *)

Ltac peel H :=
  repeat (let x := fresh "x" in
          let E := fresh "E" in
          apply bind_Ok in H as (x & E & H)).

(** X13.  The two guards of [main] stop the evaluation without raising when
    a financial value is negative or a segment is inconsistent; when metrics
    are computed, no financial input is negative, both segment totals are
    non-negative, no segment has more new customers than customers, and
    therefore the customer total is non-negative and at least the new
    customers. *)
Theorem main_guards :
  (forall i : Main.inputs,
      Main.financials_negative i = true \/ Main.customers_invalid i = true ->
      Main.calculate i = Ok None)
  /\ (forall (i : Main.inputs) (m : Main.metrics),
         Main.calculate i = Ok (Some m) ->
         lt0 (Main.cash_balance i) = false
         /\ lt0 (Main.monthly_revenue i) = false
         /\ lt0 (Main.monthly_expenses i) = false
         /\ (0 <= Main.b2b_total i)%Z /\ (Main.b2b_new i <= Main.b2b_total i)%Z
         /\ (0 <= Main.b2c_total i)%Z /\ (Main.b2c_new i <= Main.b2c_total i)%Z
         /\ Main.total_customers m = (Main.b2b_total i + Main.b2c_total i)%Z
         /\ Main.new_customers m = (Main.b2b_new i + Main.b2c_new i)%Z
         /\ (0 <= Main.total_customers m)%Z
         /\ (Main.new_customers m <= Main.total_customers m)%Z).
Proof.
  split.
  - intros i [H|H]; unfold Main.calculate; rewrite H; [reflexivity|].
    destruct (Main.financials_negative i); reflexivity.
  - intros i m H. unfold Main.calculate in H.
    destruct (Main.financials_negative i) eqn:Hf; [discriminate|].
    destruct (Main.customers_invalid i) eqn:Hc; [discriminate|].
    peel H. injection H as <-. cbn [Main.total_customers Main.new_customers].
    unfold Main.financials_negative in Hf. unfold Main.customers_invalid in Hc.
    apply orb_false_iff in Hf as (Hf & Hf3).
    apply orb_false_iff in Hf as (Hf1 & Hf2).
    apply orb_false_iff in Hc as (Hc & Hc4).
    apply orb_false_iff in Hc as (Hc & Hc3).
    apply orb_false_iff in Hc as (Hc1 & Hc2).
    apply Z.ltb_ge in Hc1, Hc3. rewrite Z.gtb_ltb in Hc2, Hc4.
    apply Z.ltb_ge in Hc2, Hc4.
    repeat split; try assumption; try reflexivity; lia.
Qed.

Lemma main_guards_witness :
  exists m, Main.calculate sample_inputs = Ok (Some m)
            /\ Main.total_customers m = 100%Z
            /\ Main.weighted_cac m = Float 140
            /\ Main.arpu m = Float 100
            /\ (Main.new_customers m <= Main.total_customers m)%Z.
Proof.
  destruct (Main.calculate sample_inputs) as [[m|]|e] eqn:E;
    try (vm_compute in E; discriminate).
  exists m. split; [reflexivity|].
  pose proof (proj2 main_guards sample_inputs m E) as G.
  vm_compute in E. injection E as <-.
  repeat split; try reflexivity. apply G.
Defined.

(** ** The scalar formulas on floats *)

Lemma not_leb0_not_eqb0 f : (f <=? 0)%float = false -> (f =? 0)%float = false.
Proof.
  rewrite leb_spec, eqb_spec, Prim2SF_zero. unfold SFleb, SFeqb.
  destruct (Prim2SF f) as [s|[|]| |[|] m e]; simpl; congruence.
Qed.

(** X15.  On float arguments, which is what the dashboard passes, the
    guards of the scalar formulas cover every zero divisor, [0.0] and [-0.0]
    alike: [calculate_burn_rate], [calculate_runway], [calculate_mom_growth]
    and [calculate_ltv_cac_ratio] never raise and return the value of their
    formula, a NaN argument included.  [calculate_lifetime_from_churn] raises
    [ZeroDivisionError] exactly when its argument is above zero and so small
    that [churn_rate / 100] underflows to zero, as for the smallest positive
    float. *)
Theorem scalar_formulas_on_floats :
  (forall r e : float,
      calculate_burn_rate (VNum (Float r)) (VNum (Float e))
      = Ok (VNum (Float (e - r))))
  /\ (forall c b : float,
         calculate_runway (VNum (Float c)) (VNum (Float b))
         = Ok (VNum (if (b <=? 0)%float then Int 0 else Float (c / b))))
  /\ (forall c p : float,
         calculate_mom_growth (VNum (Float c)) (VNum (Float p))
         = Ok (VNum (if (p =? 0)%float then Int 0
                     else Float ((c - p) / p * 100))))
  /\ (forall l c : float,
         calculate_ltv_cac_ratio (VNum (Float l)) (VNum (Float c))
         = Ok (VNum (if (c =? 0)%float then Int 0 else Float (l / c))))
  /\ (forall c : float,
         calculate_lifetime_from_churn (VNum (Float c))
         = if (0 <? c)%float
           then if (c / 100 =? 0)%float then Raise ZeroDivisionError
                else Ok (VNum (Float (1 / (c / 100))))
           else Ok (VNum (Float infinity)))
  /\ calculate_lifetime_from_churn (VNum (Float 5e-324))
     = Raise ZeroDivisionError.
Proof.
  split; [reflexivity|]. split; [|split; [|split; [|split]]].
  - intros c b. unfold calculate_runway, vle0, vdiv. cbn.
    destruct (b <=? 0)%float eqn:E; [reflexivity|].
    rewrite (not_leb0_not_eqb0 E). reflexivity.
  - intros c p. unfold calculate_mom_growth, vsub, vdiv, vmul_num. cbn.
    destruct (p =? 0)%float eqn:E; cbn; try rewrite E; reflexivity.
  - intros l c. unfold calculate_ltv_cac_ratio, vdiv. cbn.
    destruct (c =? 0)%float eqn:E; cbn; try rewrite E; reflexivity.
  - intros c. unfold calculate_lifetime_from_churn, vgt0, vdiv. cbn.
    destruct (0 <? c)%float; [|reflexivity].
    destruct (c / 100 =? 0)%float; reflexivity.
  - vm_compute. reflexivity.
Qed.

(** ** The metrics block without customers *)

(** X14.  With float financial inputs that pass the first guard and two
    segments without customers (both totals [0], no new customers), the
    block returns metrics and raises nothing: the burn rate, the runway and
    the month-over-month growth are those of the scalar formulas, the
    weighted acquisition cost, the weighted churn, the revenue per customer
    and the conversion rate are [0], the average lifetime is infinite, the
    lifetime value is [0 * inf], a NaN, and the LTV/CAC ratio is [0]. *)
Theorem main_without_customers :
  forall (i : Main.inputs) (c r e pr : float),
    Main.cash_balance i = Float c ->
    Main.monthly_revenue i = Float r ->
    Main.monthly_expenses i = Float e ->
    Main.previous_month_revenue i = Float pr ->
    Main.financials_negative i = false ->
    Main.b2b_total i = 0%Z -> Main.b2c_total i = 0%Z ->
    (Main.b2b_new i <= 0)%Z -> (Main.b2c_new i <= 0)%Z ->
    Main.calculate i
    = Ok (Some {| Main.burn_rate := Float (e - r);
                  Main.runway_months :=
                    if (e - r <=? 0)%float then Int 0
                    else Float (c / (e - r));
                  Main.mom_growth :=
                    if (pr =? 0)%float then Int 0
                    else Float ((r - pr) / pr * 100);
                  Main.total_customers := 0;
                  Main.new_customers := Main.b2b_new i + Main.b2c_new i;
                  Main.weighted_cac := Int 0;
                  Main.weighted_churn := Int 0;
                  Main.average_lifetime := Float infinity;
                  Main.arpu := Int 0;
                  Main.ltv := Float nan;
                  Main.ltv_cac_ratio := Int 0;
                  Main.conversion_rate := Int 0 |}).
Proof.
  intros i c r e pr Hc Hr He Hp Hf H1 H2 N1 N2. unfold Main.calculate.
  rewrite Hf. unfold Main.customers_invalid. rewrite H1, H2.
  rewrite !Z.gtb_ltb.
  replace (0 <? Main.b2b_new i)%Z with false by (symmetry; apply Z.ltb_ge; lia).
  replace (0 <? Main.b2c_new i)%Z with false by (symmetry; apply Z.ltb_ge; lia).
  rewrite Hc, Hr, He, Hp.
  assert (R : calculate_runway (VNum (Float c)) (VNum (Float (e - r)))
              = Ok (VNum (if (e - r <=? 0)%float then Int 0
                          else Float (c / (e - r))))).
  { unfold calculate_runway, vle0, vdiv. cbn.
    destruct (e - r <=? 0)%float eqn:E; [reflexivity|].
    rewrite (not_leb0_not_eqb0 E). reflexivity. }
  assert (G : calculate_mom_growth (VNum (Float r)) (VNum (Float pr))
              = Ok (VNum (if (pr =? 0)%float then Int 0
                          else Float ((r - pr) / pr * 100)))).
  { unfold calculate_mom_growth, vsub, vdiv, vmul_num. cbn.
    destruct (pr =? 0)%float eqn:P; cbn; try rewrite P; reflexivity. }
  change (calculate_burn_rate (VNum (Float r)) (VNum (Float e)))
    with (Ok (VNum (Float (e - r)))).
  cbn [bind]. rewrite R, G. reflexivity.
Qed.

Lemma main_without_customers_witness :
  Main.calculate
    {| Main.cash_balance := Float 100000; Main.monthly_revenue := Float 0;
       Main.monthly_expenses := Float 20000;
       Main.previous_month_revenue := Float 0;
       Main.b2b_total := 0; Main.b2b_new := 0; Main.b2b_cac := Float 500;
       Main.b2b_churn_rate := Float 2;
       Main.b2c_total := 0; Main.b2c_new := 0; Main.b2c_cac := Float 50;
       Main.b2c_churn_rate := Float 5 |}
  = Ok (Some {| Main.burn_rate := Float 20000;
                Main.runway_months := Float 5;
                Main.mom_growth := Int 0;
                Main.total_customers := 0;
                Main.new_customers := 0;
                Main.weighted_cac := Int 0;
                Main.weighted_churn := Int 0;
                Main.average_lifetime := Float infinity;
                Main.arpu := Int 0;
                Main.ltv := Float nan;
                Main.ltv_cac_ratio := Int 0;
                Main.conversion_rate := Int 0 |}).
Proof.
  match goal with
  | |- Main.calculate ?i = _ =>
      rewrite (@main_without_customers i 100000 0 20000 0
                 eq_refl eq_refl eq_refl eq_refl eq_refl eq_refl eq_refl);
        [reflexivity | cbn; lia | cbn; lia]
  end.
Defined.

(** ** A float difference and its sign *)

Lemma digits2_pos_bounds (m : positive) :
  (2 ^ (Zpos (digits2_pos m) - 1) <= Zpos m < 2 ^ Zpos (digits2_pos m))%Z.
Proof.
  induction m as [m IH|m IH|]; simpl digits2_pos.
  - rewrite Pos2Z.inj_succ. unfold Z.succ.
    replace (Zpos (digits2_pos m) + 1 - 1)%Z with (Zpos (digits2_pos m) - 1 + 1)%Z by lia.
    rewrite !Z.pow_add_r by lia. change (2 ^ 1)%Z with 2%Z. lia.
  - rewrite Pos2Z.inj_succ. unfold Z.succ.
    replace (Zpos (digits2_pos m) + 1 - 1)%Z with (Zpos (digits2_pos m) - 1 + 1)%Z by lia.
    rewrite !Z.pow_add_r by lia. change (2 ^ 1)%Z with 2%Z. lia.
  - simpl. lia.
Qed.

Lemma iter_xO_value (d m : positive) :
  Zpos (Pos.iter xO m d) = (Zpos m * 2 ^ Zpos d)%Z.
Proof.
  induction d as [|d IH] using Pos.peano_ind.
  - simpl. lia.
  - rewrite Pos.iter_succ, Pos2Z.inj_succ, Z.pow_succ_r by lia.
    rewrite Pos2Z.inj_xO, IH. ring.
Qed.

Lemma shr_1_nonneg mrs : (0 <= shr_m mrs)%Z -> (0 <= shr_m (shr_1 mrs))%Z.
Proof.
  destruct mrs as [m r s]. simpl. destruct m as [|[p|p|]|p]; simpl; lia.
Qed.

Lemma iter_shr_1_nonneg (p : positive) :
  forall mrs, (0 <= shr_m mrs)%Z -> (0 <= shr_m (iter_pos shr_1 p mrs))%Z.
Proof.
  induction p as [p IH|p IH|]; intros mrs H; simpl.
  - apply IH, IH, shr_1_nonneg, H.
  - apply IH, IH, H.
  - apply shr_1_nonneg, H.
Qed.

Lemma shr_fexp_nonneg m e l :
  (0 <= m)%Z -> (0 <= shr_m (fst (shr_fexp prec emax m e l)))%Z.
Proof.
  intros H. unfold shr_fexp, shr.
  assert (H0 : (0 <= shr_m (shr_record_of_loc m l))%Z)
    by (destruct l as [|[| |]]; simpl; exact H).
  destruct (_ - e)%Z; simpl; auto. apply iter_shr_1_nonneg, H0.
Qed.

Lemma binary_round_aux_strict s m e l :
  (0 <= m)%Z -> strict_sign s (binary_round_aux prec emax s m e l).
Proof.
  intros H. unfold binary_round_aux.
  pose proof (@shr_fexp_nonneg m e l H) as H1.
  destruct (shr_fexp prec emax m e l) as [mrs' e']. simpl in H1.
  assert (H2 : (0 <= round_nearest_even (shr_m mrs') (loc_of_shr_record mrs'))%Z).
  { unfold round_nearest_even.
    destruct (loc_of_shr_record mrs') as [|[| |]]; try lia.
    destruct (Z.even (shr_m mrs')); lia. }
  pose proof (@shr_fexp_nonneg _ e' loc_Exact H2) as H3.
  destruct (shr_fexp prec emax _ e' loc_Exact) as [mrs'' e'']. simpl in H3.
  destruct (shr_m mrs'') as [|p|p]; simpl;
    [reflexivity | destruct (Z.leb e'' _); reflexivity | lia].
Qed.

Lemma binary_round_strict s m e : strict_sign s (binary_round prec emax s m e).
Proof.
  unfold binary_round. destruct (shl_align _ _ _) as [mz ez].
  apply binary_round_aux_strict. lia.
Qed.

Lemma binary_normalize_nonpos z e :
  (z <= 0)%Z ->
  SFleb (binary_normalize prec emax z e false) (S754_zero false) = true.
Proof.
  destruct z as [|p|p]; simpl; intros H; [reflexivity | lia |].
  pose proof (binary_round_strict true p e) as S.
  destruct (binary_round prec emax true p e); simpl in S; subst;
    try reflexivity; contradiction.
Qed.

Lemma shl_align_value m e ez :
  (ez <= e)%Z ->
  Zpos (fst (shl_align m e ez)) = (Zpos m * 2 ^ (e - ez))%Z.
Proof.
  intros H. unfold shl_align.
  destruct (ez - e)%Z as [|d|d] eqn:E; cbn [fst].
  - replace (e - ez)%Z with 0%Z by lia. rewrite Z.pow_0_r, Z.mul_1_r. reflexivity.
  - pose proof (Pos2Z.is_pos d). lia.
  - rewrite iter_xO_value. replace (e - ez)%Z with (Zpos d) by lia. reflexivity.
Qed.

(** Two canonical positive mantissas compare as their exponents, then as
    themselves. *)
Lemma canonical_lt m1 e1 m2 e2 :
  bounded prec emax m1 e1 = true -> bounded prec emax m2 e2 = true ->
  (e1 < e2)%Z ->
  (Zpos m1 < Zpos m2 * 2 ^ (e2 - e1))%Z.
Proof.
  unfold bounded, canonical_mantissa, fexp, SpecFloat.emin.
  intros H1 H2 He.
  apply andb_true_iff in H1 as (H1 & _). apply andb_true_iff in H2 as (H2 & _).
  apply Z.eqb_eq in H1, H2.
  pose proof (digits2_pos_bounds m1) as (_ & B1).
  pose proof (digits2_pos_bounds m2) as (B2 & _).
  change prec with 53%Z in *. change emax with 1024%Z in *.
  assert (D1 : (Zpos (digits2_pos m1) <= 53)%Z) by lia.
  assert (D2 : (Zpos (digits2_pos m2) = 53)%Z) by lia.
  rewrite D2 in B2. change (2 ^ (53 - 1))%Z with 4503599627370496%Z in B2.
  assert (P1 : (2 ^ Zpos (digits2_pos m1) <= 2 ^ 53)%Z)
    by (apply Z.pow_le_mono_r; lia).
  change (2 ^ 53)%Z with 9007199254740992%Z in P1.
  assert (P2 : (2 ^ 1 <= 2 ^ (e2 - e1))%Z) by (apply Z.pow_le_mono_r; lia).
  change (2 ^ 1)%Z with 2%Z in P2. nia.
Qed.

Lemma SFsub_le_zero (x y : spec_float) :
  valid_binary x = true -> valid_binary y = true ->
  sf_finite y = true -> SFleb x y = true ->
  SFleb (SFsub prec emax x y) (S754_zero false) = true.
Proof.
  intros Vx Vy Fy. unfold SFleb at 1.
  destruct x as [sx|sx| |sx mx ex], y as [sy|sy| |sy my ey];
    try discriminate Fy; simpl SFcompare.
  - (* zero, zero *) intros _. destruct sx, sy; reflexivity.
  - (* zero, finite *) destruct sy; [discriminate|]. intros _. reflexivity.
  - (* infinity, zero *) destruct sx; [|discriminate]. intros _. reflexivity.
  - (* infinity, finite *) destruct sx; [|discriminate]. intros _. reflexivity.
  - discriminate.
  - discriminate.
  - (* finite, zero *) destruct sx; [|discriminate]. intros _. reflexivity.
  - (* finite, finite *)
    intros Hle. unfold SFsub. apply binary_normalize_nonpos.
    rewrite !shl_align_value by (apply Z.le_min_l || apply Z.le_min_r).
    simpl in Vx, Vy.
    assert (Px : (0 < 2 ^ (ex - Z.min ex ey))%Z)
      by (apply Z.pow_pos_nonneg; lia).
    assert (Py : (0 < 2 ^ (ey - Z.min ex ey))%Z)
      by (apply Z.pow_pos_nonneg; lia).
    destruct sx, sy; unfold cond_Zopp; cbv beta iota; try discriminate Hle.
    + (* both negative *)
      destruct (Z.compare_spec ex ey) as [E|E|E]; try discriminate Hle.
      * subst ey. rewrite Z.min_id, Z.sub_diag in *.
        change (2 ^ 0)%Z with 1%Z.
        destruct (Pos.compare_cont Eq mx my) eqn:C; try discriminate Hle;
          change (Pos.compare_cont Eq mx my) with (Pos.compare mx my) in C.
        -- apply Pos.compare_eq in C. subst. lia.
        -- apply Pos.compare_gt_iff in C. lia.
      * pose proof (@canonical_lt _ _ _ _ Vy Vx E) as L.
        replace (Z.min ex ey) with ey in * by lia.
        rewrite Z.sub_diag. change (2 ^ 0)%Z with 1%Z. lia.
    + (* negative, positive *) lia.
    + (* both positive *)
      destruct (Z.compare_spec ex ey) as [E|E|E]; try discriminate Hle.
      * subst ey. rewrite Z.min_id, Z.sub_diag in *.
        change (2 ^ 0)%Z with 1%Z.
        destruct (Pos.compare_cont Eq mx my) eqn:C; try discriminate Hle;
          change (Pos.compare_cont Eq mx my) with (Pos.compare mx my) in C.
        -- apply Pos.compare_eq in C. subst. lia.
        -- assert (L : (Zpos mx < Zpos my)%Z) by exact C. lia.
      * pose proof (@canonical_lt _ _ _ _ Vx Vy E) as L.
        replace (Z.min ex ey) with ex in * by lia.
        rewrite Z.sub_diag. change (2 ^ 0)%Z with 1%Z. lia.
Qed.

Lemma sub_le_zero (e r : float) :
  is_finite r = true -> (e <=? r)%float = true -> (e - r <=? 0)%float = true.
Proof.
  intros Fr H. rewrite leb_spec in H. rewrite leb_spec, sub_spec, Prim2SF_zero.
  apply SFsub_le_zero; auto using Prim2SF_valid.
Qed.

(** X16.  When the monthly revenue covers the monthly expenses the
    dashboard reports a runway of zero months: for float inputs with a
    finite revenue and [monthly_expenses <= monthly_revenue], the metrics
    block computes the burn rate [monthly_expenses - monthly_revenue], which
    is at most zero, and [calculate_runway] answers [0] whatever the cash
    balance is. *)
Theorem runway_when_revenue_covers_expenses :
  forall (i : Main.inputs) (m : Main.metrics) (r e : float),
    Main.monthly_revenue i = Float r ->
    Main.monthly_expenses i = Float e ->
    is_finite r = true ->
    (e <=? r)%float = true ->
    Main.calculate i = Ok (Some m) ->
    Main.burn_rate m = Float (e - r)
    /\ le0 (Main.burn_rate m) = true
    /\ Main.runway_months m = Int 0.
Proof.
  intros i m r e Hr He Fr Hle H. unfold Main.calculate in H.
  destruct (Main.financials_negative i); [discriminate|].
  destruct (Main.customers_invalid i); [discriminate|].
  rewrite Hr, He in H.
  change (calculate_burn_rate (VNum (Float r)) (VNum (Float e)))
    with (Ok (VNum (Float (e - r)))) in H.
  cbn [bind] in H.
  assert (Hb : (e - r <=? 0)%float = true) by (apply sub_le_zero; assumption).
  assert (Hrun : calculate_runway (VNum (Main.cash_balance i))
                   (VNum (Float (e - r))) = Ok (VNum (Int 0))).
  { unfold calculate_runway, vle0. cbn. rewrite Hb. reflexivity. }
  rewrite Hrun in H. cbn [bind] in H.
  peel H. cbn [operand] in *.
  repeat match goal with
         | E : Ok _ = Ok _ |- _ => injection E as <-
         end.
  cbn. repeat split. exact Hb.
Qed.

Lemma runway_when_revenue_covers_expenses_witness :
  exists m,
    Main.calculate
      {| Main.cash_balance := Float 100000; Main.monthly_revenue := Float 25000;
         Main.monthly_expenses := Float 20000;
         Main.previous_month_revenue := Float 8000;
         Main.b2b_total := 20; Main.b2b_new := 5; Main.b2b_cac := Float 500;
         Main.b2b_churn_rate := Float 2;
         Main.b2c_total := 80; Main.b2c_new := 15; Main.b2c_cac := Float 50;
         Main.b2c_churn_rate := Float 5 |} = Ok (Some m)
    /\ Main.burn_rate m = Float (20000 - 25000)
    /\ Main.runway_months m = Int 0.
Proof.
  match goal with
  | |- exists m, Main.calculate ?i = _ /\ _ =>
      destruct (Main.calculate i) as [[m|]|x] eqn:E;
        try (vm_compute in E; discriminate);
      exists m; split; [reflexivity|];
      destruct (@runway_when_revenue_covers_expenses i m 25000%float
                  20000%float eq_refl eq_refl eq_refl eq_refl E)
        as (B & _ & R); split; assumption
  end.
Defined.
